(** * EELS quantification controller: edges, intervals and their bindings

  A shallow embedding of
  [nionswift_plugin/nion_eels_analysis/EELSQuantificationController.py].

  Python objects with identity are records carrying an object id; Python
  lists are Rocq lists accessed through Python's index rules; exceptions
  are the [Raise] results of an error monad; the notifications of
  [Observable] are collected in traces or dispatched to the listeners of
  the model. *)

From stdpp Require Import gmap strings list pretty.
From Stdlib Require Import ZArith Lia Ascii.

Open Scope Z_scope.

(** ** Exceptions and results *)

Inductive exn : Set :=
| AssertionError
| TypeError
| IndexError
| ValueError
| AttributeError.

(** [Fuel] is the answer of a fuelled dispatch loop that ran out of steps;
  no Python run produces it. *)
Inductive result (A : Type) : Type :=
| Ok (a : A)
| Raise (e : exn)
| Fuel.

Arguments Ok {A} a.
Arguments Raise {A} e.
Arguments Fuel {A}.

Definition result_bind {A B} (f : A → result B) (m : result A) : result B :=
match m with
| Ok a => f a
| Raise e => Raise e
| Fuel => Fuel
end.

#[global] Instance result_mbind : MBind result := @result_bind.
#[global] Instance result_mret : MRet result := @Ok.

Definition is_ok {A} (m : result A) : Prop :=
match m with Ok _ => True | _ => False end.

Definition raises {A} (m : result A) : Prop :=
match m with Raise _ => True | _ => False end.

(** ** Python lists *)

Module Py.

(** [l[i]]: a negative index counts from the end. *)
Definition norm {A} (l : list A) (i : Z) : option nat :=
  let n := Z.of_nat (length l) in
  if decide (0 ≤ i < n) then Some (Z.to_nat i)
  else if decide (- n ≤ i < 0) then Some (Z.to_nat (i + n))
  else None.

Definition getitem {A} (l : list A) (i : Z) : result A :=
  match norm l i with
  | Some k => match l !! k with Some x => Ok x | None => Raise IndexError end
  | None => Raise IndexError
  end.

(** [l[i] = x] *)
Definition setitem {A} (l : list A) (i : Z) (x : A) : result (list A) :=
  match norm l i with
  | Some k => Ok (<[k := x]> l)
  | None => Raise IndexError
  end.

(** [del l[i]] *)
Definition delitem {A} (l : list A) (i : Z) : result (list A) :=
  match norm l i with
  | Some k => Ok (delete k l)
  | None => Raise IndexError
  end.

(** [l.insert(i, x)]: the position is clamped to the list. The list takes
    the index as a C [ssize_t]: a Python int outside that range raises
    OverflowError before anything is inserted. The model is of the indices
    within the range; the lengths, the positions of [enumerate] and the
    indices of notifications that the controller passes are all within
    it. *)
Definition ssize_t (i : Z) : Prop := - 2 ^ 63 ≤ i < 2 ^ 63.

Definition insert_pos {A} (l : list A) (i : Z) : nat :=
  let n := Z.of_nat (length l) in
  if decide (i < 0) then Z.to_nat (Z.max 0 (i + n))
  else Z.to_nat (Z.min i n).

Definition insert {A} (l : list A) (i : Z) (x : A) : list A :=
  let k := insert_pos l i in take k l ++ x :: drop k l.

(** [l.remove(x)]: drops the first element that compares equal to [x]
    under [==]. *)
Fixpoint remove {A} (eqb : A → A → bool) (x : A) (l : list A)
  : result (list A) :=
  match l with
  | [] => Raise ValueError
  | y :: l' =>
      if eqb y x then Ok l'
      else l'' ← remove eqb x l'; Ok (y :: l'')
  end.

(** [x in l] *)
Definition contains {A} (eqb : A → A → bool) (x : A) (l : list A) : bool :=
  existsb (λ y, eqb y x) l.

End Py.

(** ** Values of persisted records *)

Section Controller.

(** Python's [float]. *)
Context {num : Type}.

(** [PeriodicTable.ElectronShell], a module of the package that the
    controller imports: the shell objects, their truth value, and their
    two conversions to and from a dict. *)
Context {ElectronShell : Type}.
Variable shell_truthy : ElectronShell → bool.
Variable shell_write_to_dict : ElectronShell → gmap string num.

Inductive jvalue : Type :=
| JNone
| JStr (s : string)
| JDict (m : gmap string num)
| JList (l : list (gmap string num)).

Variable shell_from_d : jvalue → result (option ElectronShell).

(** [uuid.UUID]: the value is its 128-bit integer; [str(u)] and
    [uuid.UUID(s)] come from the standard library. *)
Definition UUID : Type := N.
Variable uuid_str : UUID → string.
Variable uuid_of_str : string → result UUID.

(** Truth value of a record value, as [d or dict()] tests it. *)
Definition jtruthy (v : jvalue) : bool :=
  match v with
  | JNone => false
  | JStr s => negb (String.eqb s "")
  | JDict m => negb (bool_decide (m = ∅))
  | JList l => negb (bool_decide (l = []))
  end.

(** [(d or dict()).get(key, None)] *)
Definition or_dict_get (d : jvalue) (key : string) : result (option num) :=
  if jtruthy d then
    match d with
    | JDict m => Ok (m !! key)
    | _ => Raise AttributeError
    end
  else Ok None.

(** ** EELSInterval *)

(** An interval object: [oid] is the identity of the Python object, the
    other two fields are its private attributes. *)
Record EELSInterval : Type := mkInterval {
  oid : nat;
  start_ev : option num;
  end_ev : option num;
}.

(** [EELSInterval(start_ev, end_ev)] allocated at identity [id]. *)
Definition EELSInterval_init (id : nat) (s e : option num) : EELSInterval :=
  mkInterval id s e.

(** [EELSInterval] defines no [__eq__]: [==] is identity. *)
Definition interval_eqb (a b : EELSInterval) : bool :=
  Nat.eqb (oid a) (oid b).

Definition EELSInterval_from_d (id : nat) (d : jvalue) : result EELSInterval :=
  s ← or_dict_get d "start_ev";
  e ← or_dict_get d "end_ev";
  Ok (EELSInterval_init id s e).

Definition EELSInterval_write_to_dict (i : EELSInterval) : gmap string num :=
  let d := ∅ in
  let d := match start_ev i with Some v => <["start_ev" := v]> d | None => d end in
  let d := match end_ev i with Some v => <["end_ev" := v]> d | None => d end in
  d.

(** The two bounds of an interval, the part a round trip can preserve. *)
Definition bounds (i : EELSInterval) : option num * option num :=
  (start_ev i, end_ev i).

(** ** EELSEdge *)

(** What an attribute of an edge can hold: Python checks no annotation. *)
Inductive pyobj : Type :=
| PyNone
| PyInterval (i : EELSInterval)
| PyShell (s : ElectronShell).

Definition of_interval (o : option EELSInterval) : pyobj :=
  match o with Some i => PyInterval i | None => PyNone end.

Definition of_shell (o : option ElectronShell) : pyobj :=
  match o with Some s => PyShell s | None => PyNone end.

(** [if x:] on an attribute: an [EELSInterval] has neither [__bool__] nor
    [__len__]. *)
Definition truthy (o : pyobj) : bool :=
  match o with
  | PyNone => false
  | PyInterval _ => true
  | PyShell s => shell_truthy s
  end.

(** [x._write_to_dict()] *)
Definition obj_write_to_dict (o : pyobj) : result (gmap string num) :=
  match o with
  | PyNone => Raise AttributeError
  | PyInterval i => Ok (EELSInterval_write_to_dict i)
  | PyShell s => Ok (shell_write_to_dict s)
  end.

Inductive notification : Type :=
| property_changed (name : string)
| item_inserted (key : string) (value : EELSInterval) (before_index : Z)
| item_removed (key : string) (value : EELSInterval) (index : Z)
| item_value_changed (key : string) (value : EELSInterval) (index : Z).

(** The private attributes of an edge. *)
Record EELSEdge : Type := mkEdge {
  edge_uuid : UUID;
  edge_signal_eels_interval : pyobj;
  edge_fit_eels_intervals : list EELSInterval;
  edge_electron_shell : pyobj;
}.

(** The getters. *)
Definition get_uuid (e : EELSEdge) : UUID := edge_uuid e.
Definition get_signal_eels_interval (e : EELSEdge) : pyobj :=
  edge_signal_eels_interval e.
Definition get_electron_shell (e : EELSEdge) : pyobj := edge_electron_shell e.
Definition get_fit_eels_intervals (e : EELSEdge) : list EELSInterval :=
  edge_fit_eels_intervals e.

(** The setters and list mutators: the new edge and the notifications
    sent, in order. *)
Definition set_signal_eels_interval (value : pyobj) (e : EELSEdge)
  : EELSEdge * list notification :=
  (mkEdge (edge_uuid e) value (edge_fit_eels_intervals e) (edge_electron_shell e),
   [property_changed "signal_eels_interval"]).

(** The shell setter assigns [self.__signal_eels_interval], as the source
    does. *)
Definition set_electron_shell (value : pyobj) (e : EELSEdge)
  : EELSEdge * list notification :=
  (mkEdge (edge_uuid e) value (edge_fit_eels_intervals e) (edge_electron_shell e),
   [property_changed "electron_shell"]).

Definition with_fits (e : EELSEdge) (l : list EELSInterval) : EELSEdge :=
  mkEdge (edge_uuid e) (edge_signal_eels_interval e) l (edge_electron_shell e).

(** [insert_fit_eels_interval(index, interval)], for an index within the
    range of a C [ssize_t] (see [Py.insert]). *)
Definition insert_fit_eels_interval (index : Z) (interval : EELSInterval)
    (e : EELSEdge) : EELSEdge * list notification :=
  (with_fits e (Py.insert (edge_fit_eels_intervals e) index interval),
   [item_inserted "fit_eels_intervals" interval index]).

Definition append_fit_eels_interval (interval : EELSInterval) (e : EELSEdge)
  : EELSEdge * list notification :=
  insert_fit_eels_interval (Z.of_nat (length (edge_fit_eels_intervals e)))
    interval e.

Definition remove_fit_eels_interval (index : Z) (e : EELSEdge)
  : result (EELSEdge * list notification) :=
  fit_interval ← Py.getitem (edge_fit_eels_intervals e) index;
  l ← Py.remove interval_eqb fit_interval (edge_fit_eels_intervals e);
  Ok (with_fits e l, [item_removed "fit_eels_intervals" fit_interval index]).

Definition set_fit_eels_interval (index : Z) (interval : EELSInterval)
    (e : EELSEdge) : result (EELSEdge * list notification) :=
  l ← Py.setitem (edge_fit_eels_intervals e) index interval;
  Ok (with_fits e l, [item_value_changed "fit_eels_intervals" interval index]).

(** [uuid.UUID(x)] on a record value. *)
Definition uuid_UUID (v : jvalue) : result UUID :=
  match v with
  | JStr s => uuid_of_str s
  | JNone => Raise TypeError
  | _ => Raise AttributeError
  end.

(** [for x in v]: the values a record value yields when iterated (a string
    yields its characters, a dict its keys). *)
Definition jiter (v : jvalue) : result (list jvalue) :=
  match v with
  | JNone => Raise TypeError
  | JStr s => Ok ((λ c, JStr (String c EmptyString)) <$> String.list_ascii_of_string s)
  | JDict m => Ok (JStr <$> (map_to_list m).*1)
  | JList l => Ok (JDict <$> l)
  end.

(** [[EELSInterval.from_d(x) for x in l]], the objects allocated from
    identity [id] on. *)
Fixpoint from_d_all (id : nat) (l : list jvalue) : result (list EELSInterval) :=
  match l with
  | [] => Ok []
  | v :: l' =>
      i ← EELSInterval_from_d id v;
      r ← from_d_all (S id) l';
      Ok (i :: r)
  end.

(** [EELSEdge(signal_eels_interval=.., fit_eels_intervals=.., electron_shell=..,
    d=..)]. [uuid4_a] and [uuid4_b] are the values of the two calls of
    [uuid.uuid4()], [next] the first free object identity. *)
Definition EELSEdge_init (uuid4_a uuid4_b : UUID) (next : nat)
    (signal_eels_interval : pyobj) (fit_eels_intervals : option (list EELSInterval))
    (electron_shell : pyobj) (d : option (gmap string jvalue)) : result EELSEdge :=
  let self := mkEdge uuid4_a signal_eels_interval (default [] fit_eels_intervals)
                electron_shell in
  match d with
  | None => Ok self
  | Some d =>
      u ← uuid_UUID (default (JStr (uuid_str uuid4_b)) (d !! "uuid"));
      s ← EELSInterval_from_d next (default JNone (d !! "signal_eels_interval"));
      ds ← jiter (default (JList []) (d !! "fit_eels_intervals"));
      fs ← from_d_all (S next) ds;
      sh ← shell_from_d (default JNone (d !! "electron_shell"));
      Ok (mkEdge u (PyInterval s) fs (of_shell sh))
  end.

Definition EELSEdge_write_to_dict (e : EELSEdge) : result (gmap string jvalue) :=
  let d := {[ "uuid" := JStr (uuid_str (edge_uuid e)) ]} in
  d ← (if truthy (edge_signal_eels_interval e) then
         sd ← obj_write_to_dict (edge_signal_eels_interval e);
         Ok (<["signal_eels_interval" := JDict sd]> d)
       else Ok d);
  let d := if bool_decide (0 < length (edge_fit_eels_intervals e))%nat then
             <["fit_eels_intervals" :=
                 JList (EELSInterval_write_to_dict <$> edge_fit_eels_intervals e)]> d
           else d in
  d ← (if truthy (edge_signal_eels_interval e) then
         sd ← obj_write_to_dict (edge_signal_eels_interval e);
         Ok (<["signal_eels_interval" := JDict sd]> d)
       else Ok d);
  if truthy (edge_electron_shell e) then
    sd ← obj_write_to_dict (edge_electron_shell e);
    Ok (<["electron_shell" := JDict sd]> d)
  else Ok d.

(** ** Fractional intervals and the converter *)

(** The arithmetic of [float] with the integer data length, and the two
    directions of the calibration of the data item
    ([Calibration.convert_to_calibrated_value] and
    [convert_from_calibrated_value]). *)
Variable fmul : num → Z → num.
Variable fdiv : num → Z → num.
Variable convert_to_calibrated_value : num → num.
Variable convert_from_calibrated_value : num → num.

(** The [interval] of a graphic: a pair of fractions of the data length. *)
Definition frac : Type := num * num.

(** [EELSInterval.from_fractional_interval(data_len, calibration, interval)],
    the new object allocated at identity [id]. *)
Definition from_fractional_interval (id : nat) (data_len : Z) (interval : frac)
  : result EELSInterval :=
  if decide (data_len > 0) then
    let start_pixel := fmul interval.1 data_len in
    let end_pixel := fmul interval.2 data_len in
    Ok (EELSInterval_init id (Some (convert_to_calibrated_value start_pixel))
          (Some (convert_to_calibrated_value end_pixel)))
  else Raise AssertionError.

(** [self.to_fractional_interval(data_len, calibration)]: the calibration
    does arithmetic on each bound, which fails on [None]. *)
Definition to_fractional_interval (data_len : Z) (self : EELSInterval)
  : result frac :=
  if decide (data_len > 0) then
    match start_ev self with
    | None => Raise TypeError
    | Some s =>
        let start_pixel := convert_from_calibrated_value s in
        match end_ev self with
        | None => Raise TypeError
        | Some e =>
            let end_pixel := convert_from_calibrated_value e in
            Ok (fdiv start_pixel data_len, fdiv end_pixel data_len)
        end
    end
  else Raise AssertionError.

(** [EELSInterfaceToFractionalIntervalConverter]: the data length is the
    state of the converter, the calibration is the one above. *)
Definition convert (eels_data_len : Z) (eels_interval : pyobj) : result frac :=
  match eels_interval with
  | PyInterval i => to_fractional_interval eels_data_len i
  | _ => Raise AttributeError
  end.

Definition convert_back (id : nat) (eels_data_len : Z) (interval : frac)
  : result EELSInterval :=
  from_fractional_interval id eels_data_len interval.

(** ** IntervalListConnection

    The connection between the fit intervals of an edge and the fit
    interval graphics of a display item. The graphics are objects of the
    host: the model keeps the [interval] of each in a store keyed by the
    identity of the graphic, and the lists of the connection hold
    identities. Assigning the [interval] of a graphic stores the value and
    fires the property-changed event of the graphic with "interval";
    the listeners of an event of a graphic are those the connection holds
    for that graphic. *)

(** A listener on an event of graphic [l_graphic], made with
    [functools.partial(handler, l_index)]. *)
Record Listener : Type := mkListener {
  l_graphic : nat;
  l_index : Z;
}.

(** What runs: the calls into the edge, the calls into the host, and the
    delivery of a notification of the edge. *)
Inductive call : Type :=
| EdgeInsert (index : Z) (interval : EELSInterval)
| EdgeRemove (index : Z)
| EdgeSet (index : Z) (interval : EELSInterval)
| GraphicSet (g : nat) (v : frac)
| RemoveGraphic (g : nat)
| Notify (n : notification).

Record ListWorld : Type := mkLW {
  lw_edge : EELSEdge;
  (** the display item: its graphics, and the [interval] of each graphic *)
  lw_display_graphics : list nat;
  lw_interval : gmap nat frac;
  (** the objects "fit_interval_graphics" of the computation *)
  lw_computation_objects : list nat;
  (** the attributes of the connection *)
  lw_fit_interval_graphics : list nat;
  lw_property_changed_listeners : list Listener;
  lw_about_to_be_removed_listeners : list Listener;
  (** the cells [blocked] and [remove_blocked] of the closures *)
  lw_blocked : bool;
  lw_remove_blocked : bool;
  (** the identities of the next graphic and the next interval object *)
  lw_next_graphic : nat;
  lw_next_oid : nat;
  (** the calls made so far, oldest first *)
  lw_trace : list call;
}.

Definition set_lw_edge (e : EELSEdge) (w : ListWorld) : ListWorld :=
  mkLW e (lw_display_graphics w) (lw_interval w) (lw_computation_objects w)
    (lw_fit_interval_graphics w) (lw_property_changed_listeners w)
    (lw_about_to_be_removed_listeners w) (lw_blocked w) (lw_remove_blocked w)
    (lw_next_graphic w) (lw_next_oid w) (lw_trace w).

Definition set_lw_display_graphics (l : list nat) (w : ListWorld) : ListWorld :=
  mkLW (lw_edge w) l (lw_interval w) (lw_computation_objects w)
    (lw_fit_interval_graphics w) (lw_property_changed_listeners w)
    (lw_about_to_be_removed_listeners w) (lw_blocked w) (lw_remove_blocked w)
    (lw_next_graphic w) (lw_next_oid w) (lw_trace w).

Definition set_lw_interval (m : gmap nat frac) (w : ListWorld) : ListWorld :=
  mkLW (lw_edge w) (lw_display_graphics w) m (lw_computation_objects w)
    (lw_fit_interval_graphics w) (lw_property_changed_listeners w)
    (lw_about_to_be_removed_listeners w) (lw_blocked w) (lw_remove_blocked w)
    (lw_next_graphic w) (lw_next_oid w) (lw_trace w).

Definition set_lw_computation_objects (l : list nat) (w : ListWorld) : ListWorld :=
  mkLW (lw_edge w) (lw_display_graphics w) (lw_interval w) l
    (lw_fit_interval_graphics w) (lw_property_changed_listeners w)
    (lw_about_to_be_removed_listeners w) (lw_blocked w) (lw_remove_blocked w)
    (lw_next_graphic w) (lw_next_oid w) (lw_trace w).

Definition set_lw_fit_interval_graphics (l : list nat) (w : ListWorld) : ListWorld :=
  mkLW (lw_edge w) (lw_display_graphics w) (lw_interval w) (lw_computation_objects w)
    l (lw_property_changed_listeners w)
    (lw_about_to_be_removed_listeners w) (lw_blocked w) (lw_remove_blocked w)
    (lw_next_graphic w) (lw_next_oid w) (lw_trace w).

Definition set_lw_property_changed_listeners (l : list Listener) (w : ListWorld)
  : ListWorld :=
  mkLW (lw_edge w) (lw_display_graphics w) (lw_interval w) (lw_computation_objects w)
    (lw_fit_interval_graphics w) l
    (lw_about_to_be_removed_listeners w) (lw_blocked w) (lw_remove_blocked w)
    (lw_next_graphic w) (lw_next_oid w) (lw_trace w).

Definition set_lw_about_to_be_removed_listeners (l : list Listener) (w : ListWorld)
  : ListWorld :=
  mkLW (lw_edge w) (lw_display_graphics w) (lw_interval w) (lw_computation_objects w)
    (lw_fit_interval_graphics w) (lw_property_changed_listeners w)
    l (lw_blocked w) (lw_remove_blocked w)
    (lw_next_graphic w) (lw_next_oid w) (lw_trace w).

Definition set_lw_blocked (b : bool) (w : ListWorld) : ListWorld :=
  mkLW (lw_edge w) (lw_display_graphics w) (lw_interval w) (lw_computation_objects w)
    (lw_fit_interval_graphics w) (lw_property_changed_listeners w)
    (lw_about_to_be_removed_listeners w) b (lw_remove_blocked w)
    (lw_next_graphic w) (lw_next_oid w) (lw_trace w).

Definition set_lw_remove_blocked (b : bool) (w : ListWorld) : ListWorld :=
  mkLW (lw_edge w) (lw_display_graphics w) (lw_interval w) (lw_computation_objects w)
    (lw_fit_interval_graphics w) (lw_property_changed_listeners w)
    (lw_about_to_be_removed_listeners w) (lw_blocked w) b
    (lw_next_graphic w) (lw_next_oid w) (lw_trace w).

Definition set_lw_next_graphic (n : nat) (w : ListWorld) : ListWorld :=
  mkLW (lw_edge w) (lw_display_graphics w) (lw_interval w) (lw_computation_objects w)
    (lw_fit_interval_graphics w) (lw_property_changed_listeners w)
    (lw_about_to_be_removed_listeners w) (lw_blocked w) (lw_remove_blocked w)
    n (lw_next_oid w) (lw_trace w).

Definition set_lw_next_oid (n : nat) (w : ListWorld) : ListWorld :=
  mkLW (lw_edge w) (lw_display_graphics w) (lw_interval w) (lw_computation_objects w)
    (lw_fit_interval_graphics w) (lw_property_changed_listeners w)
    (lw_about_to_be_removed_listeners w) (lw_blocked w) (lw_remove_blocked w)
    (lw_next_graphic w) n (lw_trace w).

Definition log (c : call) (w : ListWorld) : ListWorld :=
  mkLW (lw_edge w) (lw_display_graphics w) (lw_interval w) (lw_computation_objects w)
    (lw_fit_interval_graphics w) (lw_property_changed_listeners w)
    (lw_about_to_be_removed_listeners w) (lw_blocked w) (lw_remove_blocked w)
    (lw_next_graphic w) (lw_next_oid w) (lw_trace w ++ [c]).

(** Runs [f] on each element in turn, stopping at the first exception. *)
Fixpoint for_each {A S} (f : A → S → result S) (l : list A) (s : S) : result S :=
  match l with
  | [] => Ok s
  | a :: l' => s' ← f a s; for_each f l' s'
  end.

(** The listeners of a list that listen on graphic [g]. *)
Definition listeners_on (g : nat) (l : list Listener) : list Listener :=
  filter (λ x, l_graphic x = g) l.

Section Handlers.

(** [eels_data_len] of the data item, and what a call does (the handlers
    are closed under [exec] below). *)
Variable eels_data_len : Z.
Variable run : call → ListWorld → result ListWorld.

(** The closure [update_fit_eels_interval(index, property_name)]. *)
Definition update_fit_eels_interval (index : Z) (property_name : string)
    (w : ListWorld) : result ListWorld :=
  if String.eqb property_name "interval" && negb (lw_blocked w) then
    let w := set_lw_blocked true w in
    g ← Py.getitem (lw_fit_interval_graphics w) index;
    v ← match lw_interval w !! g with
        | Some v => Ok v
        | None => Raise AttributeError
        end;
    x ← convert_back (lw_next_oid w) eels_data_len v;
    let w := set_lw_next_oid (S (lw_next_oid w)) w in
    w ← run (EdgeSet index x) w;
    Ok (set_lw_blocked false w)
  else Ok w.

(** The closure [remove_fit_eels_interval(index, cascade_items)] of the
    connection, called when a graphic is about to be deleted. *)
Definition graphic_about_to_be_removed (index : Z) (w : ListWorld)
  : result ListWorld :=
  let w := set_lw_remove_blocked true w in
  w ← run (EdgeRemove index) w;
  _ ← Py.getitem (lw_property_changed_listeners w) index;
  l ← Py.delitem (lw_property_changed_listeners w) index;
  let w := set_lw_property_changed_listeners l w in
  _ ← Py.getitem (lw_about_to_be_removed_listeners w) index;
  l ← Py.delitem (lw_about_to_be_removed_listeners w) index;
  let w := set_lw_about_to_be_removed_listeners l w in
  l ← Py.delitem (lw_fit_interval_graphics w) index;
  let w := set_lw_fit_interval_graphics l w in
  Ok (set_lw_remove_blocked false w).

(** The closure [fit_eels_interval_inserted(key, value, before_index)]. *)
Definition fit_eels_interval_inserted (key : string) (value : EELSInterval)
    (before_index : Z) (w : ListWorld) : result ListWorld :=
  if String.eqb key "fit_eels_intervals" then
    let fit_interval_graphic := lw_next_graphic w in
    let w := set_lw_next_graphic (S fit_interval_graphic) w in
    let w := set_lw_display_graphics
               (lw_display_graphics w ++ [fit_interval_graphic]) w in
    let w := set_lw_fit_interval_graphics
               (Py.insert (lw_fit_interval_graphics w) before_index
                  fit_interval_graphic) w in
    v ← to_fractional_interval eels_data_len value;
    w ← run (GraphicSet fit_interval_graphic v) w;
    let w := set_lw_property_changed_listeners
               (Py.insert (lw_property_changed_listeners w) before_index
                  (mkListener fit_interval_graphic before_index)) w in
    let w := set_lw_about_to_be_removed_listeners
               (Py.insert (lw_about_to_be_removed_listeners w) before_index
                  (mkListener fit_interval_graphic before_index)) w in
    Ok (set_lw_computation_objects
          (Py.insert (lw_computation_objects w) before_index
             fit_interval_graphic) w)
  else Ok w.

(** The closure [fit_eels_interval_removed(key, value, index)]. *)
Definition fit_eels_interval_removed (key : string) (value : EELSInterval)
    (index : Z) (w : ListWorld) : result ListWorld :=
  if String.eqb key "fit_eels_intervals" && negb (lw_remove_blocked w) then
    _ ← Py.getitem (lw_property_changed_listeners w) index;
    l ← Py.delitem (lw_property_changed_listeners w) index;
    let w := set_lw_property_changed_listeners l w in
    _ ← Py.getitem (lw_about_to_be_removed_listeners w) index;
    l ← Py.delitem (lw_about_to_be_removed_listeners w) index;
    let w := set_lw_about_to_be_removed_listeners l w in
    g ← Py.getitem (lw_fit_interval_graphics w) index;
    w ← run (RemoveGraphic g) w;
    l ← Py.delitem (lw_fit_interval_graphics w) index;
    Ok (set_lw_fit_interval_graphics l w)
  else Ok w.

(** The closure [fit_eels_interval_value_changed(key, value, index)]. *)
Definition fit_eels_interval_value_changed (key : string) (value : EELSInterval)
    (index : Z) (w : ListWorld) : result ListWorld :=
  if String.eqb key "fit_eels_intervals" then
    v ← convert eels_data_len (PyInterval value);
    g ← Py.getitem (lw_fit_interval_graphics w) index;
    run (GraphicSet g v) w
  else Ok w.

(** The notifications of the edge reach the three listeners of the
    connection; it does not listen to property changes. *)
Definition deliver (n : notification) (w : ListWorld) : result ListWorld :=
  match n with
  | property_changed _ => Ok w
  | item_inserted key value before_index =>
      fit_eels_interval_inserted key value before_index w
  | item_removed key value index => fit_eels_interval_removed key value index w
  | item_value_changed key value index =>
      fit_eels_interval_value_changed key value index w
  end.

Definition notify_all (ns : list notification) (w : ListWorld) : result ListWorld :=
  for_each (λ n, run (Notify n)) ns w.

(** One call. The setter of a graphic stores the interval and fires the
    property-changed event of the graphic; removing a graphic fires its
    about-to-cascade-delete event, then takes it off the display item and
    out of the computation. An event calls the listeners that were
    listening when it fired. *)
Definition step (c : call) (w : ListWorld) : result ListWorld :=
  let w := log c w in
  match c with
  | EdgeInsert index interval =>
      let '(e, ns) := insert_fit_eels_interval index interval (lw_edge w) in
      notify_all ns (set_lw_edge e w)
  | EdgeRemove index =>
      '(e, ns) ← remove_fit_eels_interval index (lw_edge w);
      notify_all ns (set_lw_edge e w)
  | EdgeSet index interval =>
      '(e, ns) ← set_fit_eels_interval index interval (lw_edge w);
      notify_all ns (set_lw_edge e w)
  | GraphicSet g v =>
      let w := set_lw_interval (<[g := v]> (lw_interval w)) w in
      for_each (λ l, update_fit_eels_interval (l_index l) "interval")
        (listeners_on g (lw_property_changed_listeners w)) w
  | RemoveGraphic g =>
      w ← for_each (λ l, graphic_about_to_be_removed (l_index l))
            (listeners_on g (lw_about_to_be_removed_listeners w)) w;
      let w := set_lw_display_graphics
                 (filter (λ x, x ≠ g) (lw_display_graphics w)) w in
      let w := set_lw_computation_objects
                 (filter (λ x, x ≠ g) (lw_computation_objects w)) w in
      Ok (set_lw_interval (delete g (lw_interval w)) w)
  | Notify n => deliver n w
  end.

End Handlers.

(** Calls nest (a handler calls into the edge, whose notification calls a
    handler): [exec] runs a call with a bound on the nesting depth. *)
Fixpoint exec (eels_data_len : Z) (fuel : nat) (c : call) (w : ListWorld)
  : result ListWorld :=
  match fuel with
  | O => Fuel
  | S fuel' => step eels_data_len (exec eels_data_len fuel') c w
  end.

(** A sequence of calls, one after the other. *)
Definition exec_all (eels_data_len : Z) (fuel : nat) (cs : list call)
    (w : ListWorld) : result ListWorld :=
  for_each (exec eels_data_len fuel) cs w.

(** [IntervalListConnection(document_model, eels_display_item, eels_data_item,
    eels_edge, fit_interval_graphics, computation)]: the connection listens
    to the edge and to each graphic of the list, with its position. *)
Definition initial_listeners (fit_interval_graphics : list nat) : list Listener :=
  imap (λ index g, mkListener g (Z.of_nat index)) fit_interval_graphics.

Definition IntervalListConnection_init (eels_edge : EELSEdge)
    (display_graphics : list nat) (interval : gmap nat frac)
    (computation_objects : list nat) (fit_interval_graphics : list nat)
    (next_graphic next_oid : nat) : ListWorld :=
  mkLW eels_edge display_graphics interval computation_objects
    fit_interval_graphics
    (initial_listeners fit_interval_graphics)
    (initial_listeners fit_interval_graphics)
    false false next_graphic next_oid [].

(** ** IntervalConnection

    The connection between one interval property of an edge and the
    [interval] of one graphic.

    Two classes of the host take part. [Graphics.IntervalGraphic]: assigning
    its [interval] stores the value and fires the property-changed event of
    the graphic with "interval", the event the connection listens to.
    [Binding.PropertyBinding] of [nion.utils]: it listens to the
    property-changed event of its source and, for the bound name, calls the
    target setter with the converted value of the property (with the
    fallback when the property is None); [update_source] assigns the
    converted-back value to the property of the source; making the binding
    or assigning its target setter calls nothing. *)

(** [getattr(eels_edge, name)] and [setattr(eels_edge, name, value)]: the
    properties of [EELSEdge]; [uuid] and [fit_eels_intervals] have no
    setter. *)
Definition edge_getattr (name : string) (e : EELSEdge) : result pyobj :=
  if String.eqb name "signal_eels_interval" then Ok (get_signal_eels_interval e)
  else if String.eqb name "electron_shell" then Ok (get_electron_shell e)
  else Raise AttributeError.

Definition edge_setattr (name : string) (value : pyobj) (e : EELSEdge)
  : result (EELSEdge * list notification) :=
  if String.eqb name "signal_eels_interval" then Ok (set_signal_eels_interval value e)
  else if String.eqb name "electron_shell" then Ok (set_electron_shell value e)
  else Raise AttributeError.

Inductive conn_call : Type :=
| SetAttr (value : pyobj)
| GraphicIntervalSet (v : frac).

Record ConnWorld : Type := mkCW {
  cw_edge : EELSEdge;
  (** [interval_graphic.interval] *)
  cw_interval : frac;
  (** the cell [blocked] of the closure *)
  cw_blocked : bool;
  (** whether the listener on the graphic and the binding on the edge are
      open *)
  cw_interval_graphic_listener : bool;
  cw_interval_binding : bool;
  cw_next_oid : nat;
  (** the calls made so far, oldest first *)
  cw_trace : list conn_call;
}.

Definition set_cw_edge (e : EELSEdge) (w : ConnWorld) : ConnWorld :=
  mkCW e (cw_interval w) (cw_blocked w) (cw_interval_graphic_listener w)
    (cw_interval_binding w) (cw_next_oid w) (cw_trace w).

Definition set_cw_interval (v : frac) (w : ConnWorld) : ConnWorld :=
  mkCW (cw_edge w) v (cw_blocked w) (cw_interval_graphic_listener w)
    (cw_interval_binding w) (cw_next_oid w) (cw_trace w).

Definition set_cw_blocked (b : bool) (w : ConnWorld) : ConnWorld :=
  mkCW (cw_edge w) (cw_interval w) b (cw_interval_graphic_listener w)
    (cw_interval_binding w) (cw_next_oid w) (cw_trace w).

Definition set_cw_next_oid (n : nat) (w : ConnWorld) : ConnWorld :=
  mkCW (cw_edge w) (cw_interval w) (cw_blocked w) (cw_interval_graphic_listener w)
    (cw_interval_binding w) n (cw_trace w).

Definition conn_log (c : conn_call) (w : ConnWorld) : ConnWorld :=
  mkCW (cw_edge w) (cw_interval w) (cw_blocked w) (cw_interval_graphic_listener w)
    (cw_interval_binding w) (cw_next_oid w) (cw_trace w ++ [c]).

Section ConnHandlers.

Variable eels_data_len : Z.
Variable interval_property_name : string.
Variable run : conn_call → ConnWorld → result ConnWorld.

(** The closure [update_interval(interval)], the target setter of the
    binding; the binding has no fallback, so an edge property that is
    [None] reaches it as [None], which the graphic cannot take. *)
Definition update_interval (interval : option frac) (w : ConnWorld)
  : result ConnWorld :=
  match interval with
  | Some v => run (GraphicIntervalSet v) w
  | None => Raise TypeError
  end.

(** [Binding.PropertyBinding(eels_edge, interval_property_name,
    converter=converter)]: its listener on the property-changed event of the
    edge, and [update_source]. *)
Definition binding_property_changed (property_name_ : string) (w : ConnWorld)
  : result ConnWorld :=
  if String.eqb property_name_ interval_property_name then
    value ← edge_getattr interval_property_name (cw_edge w);
    match value with
    | PyNone => update_interval None w
    | _ => v ← convert eels_data_len value; update_interval (Some v) w
    end
  else Ok w.

Definition binding_update_source (target_value : frac) (w : ConnWorld)
  : result ConnWorld :=
  x ← convert_back (cw_next_oid w) eels_data_len target_value;
  let w := set_cw_next_oid (S (cw_next_oid w)) w in
  run (SetAttr (PyInterval x)) w.

(** The closure [update_eels_interval(property_name)]. *)
Definition update_eels_interval (property_name : string) (w : ConnWorld)
  : result ConnWorld :=
  if String.eqb property_name "interval" && negb (cw_blocked w) then
    let w := set_cw_blocked true w in
    w ← binding_update_source (cw_interval w) w;
    Ok (set_cw_blocked false w)
  else Ok w.

Definition conn_deliver (n : notification) (w : ConnWorld) : result ConnWorld :=
  match n with
  | property_changed name =>
      if cw_interval_binding w then binding_property_changed name w else Ok w
  | _ => Ok w
  end.

(** One call: a setter of the edge notifies the binding; the setter of
    the graphic stores the interval and fires the property-changed event of
    the graphic. *)
Definition conn_step (c : conn_call) (w : ConnWorld) : result ConnWorld :=
  let w := conn_log c w in
  match c with
  | SetAttr value =>
      '(e, ns) ← edge_setattr interval_property_name value (cw_edge w);
      for_each conn_deliver ns (set_cw_edge e w)
  | GraphicIntervalSet v =>
      let w := set_cw_interval v w in
      if cw_interval_graphic_listener w then update_eels_interval "interval" w
      else Ok w
  end.

End ConnHandlers.

Fixpoint conn_exec (eels_data_len : Z) (interval_property_name : string)
    (fuel : nat) (c : conn_call) (w : ConnWorld) : result ConnWorld :=
  match fuel with
  | O => Fuel
  | S fuel' =>
      conn_step eels_data_len interval_property_name
        (conn_exec eels_data_len interval_property_name fuel') c w
  end.

(** [IntervalConnection(eels_data_item, eels_edge, interval_property_name,
    interval_graphic)]: creates the converter and the binding, sets the
    target setter, listens to the graphic. [interval] is the interval the
    graphic has when the connection is made. *)
Definition IntervalConnection_init (eels_edge : EELSEdge) (interval : frac)
    (next_oid : nat) : ConnWorld :=
  mkCW eels_edge interval false true true next_oid [].

(** [IntervalConnection.close()] *)
Definition IntervalConnection_close (w : ConnWorld) : ConnWorld :=
  mkCW (cw_edge w) (cw_interval w) (cw_blocked w) false false (cw_next_oid w)
    (cw_trace w).

(** The writes into the edge and into the graphic among a list of calls. *)
Definition edge_writes (t : list conn_call) : list pyobj :=
  omap (λ c, match c with SetAttr v => Some v | _ => None end) t.

Definition graphic_writes (t : list conn_call) : list frac :=
  omap (λ c, match c with GraphicIntervalSet v => Some v | _ => None end) t.

(** ** Objects of the document model

    Data items, graphics, display items and listeners are known by their
    identity. A computation carries what the controller reads back from
    it. *)

Record Computation : Type := mkComputation {
  c_id : nat;
  c_processing_id : string;
  c_source : option nat;
  (** the variables, [None] when [_get_variable] finds none *)
  c_eels_edge_uuid : option string;
  c_fit_interval_graphics : option (list nat);
  c_signal_interval_graphic : option nat;
  (** the results, as [get_referenced_object] returns them *)
  c_subtracted : option nat;
  c_background : option nat;
}.

(** [computation._get_variable(name).bound_item.value] *)
Definition bound_item_value {A} (variable : option A) : result A :=
  match variable with
  | Some v => Ok v
  | None => Raise AttributeError
  end.

(** The two connections, as the listeners they hold. *)
Record IntervalConnection : Type := mkIC {
  ic_interval_graphic_listener : option nat;
  ic_interval_binding : option nat;
}.

Record IntervalListConnection : Type := mkILC {
  ilc_item_inserted_event_listener : option nat;
  ilc_item_removed_event_listener : option nat;
  ilc_item_value_changed_event_listener : option nat;
  ilc_property_changed_listeners : option (list nat);
  ilc_about_to_be_removed_listeners : option (list nat);
}.

(** ** EELSEdgeDisplay *)

Record EELSEdgeDisplay : Type := mkEdgeDisplay {
  ed_eels_edge : EELSEdge;
  ed_background_data_item : option nat;
  ed_signal_data_item : option nat;
  ed_signal_interval_graphic : option nat;
  ed_fit_interval_graphics : list nat;
  ed_computation : option Computation;
  ed_signal_interval_connection : option IntervalConnection;
  ed_interval_list_connection : option IntervalListConnection;
  ed_signal_interval_about_to_close_connection : option nat;
  ed_computation_about_to_close_connection : option nat;
}.

(** [EELSEdgeDisplay(eels_edge, should_hide_fn)] *)
Definition EELSEdgeDisplay_init (eels_edge : EELSEdge) : EELSEdgeDisplay :=
  mkEdgeDisplay eels_edge None None None [] None None None None None.

(** ** EELSQuantificationDisplay.__read *)

(** [EELSQuantification.get_eels_edge_from_uuid] *)
Fixpoint get_eels_edge_from_uuid (eels_edges : list EELSEdge) (eels_edge_uuid : UUID)
  : option EELSEdge :=
  match eels_edges with
  | [] => None
  | eels_edge :: rest =>
      if decide (get_uuid eels_edge = eels_edge_uuid) then Some eels_edge
      else get_eels_edge_from_uuid rest eels_edge_uuid
  end.

(** The first loop: the computations of the document that subtract a
    background on this display item, by the edge UUID they store. *)
Fixpoint read_computation_map (eels_display_item : option nat)
    (computations : list Computation) (computation_map : gmap N Computation)
  : result (gmap N Computation) :=
  match computations with
  | [] => Ok computation_map
  | computation :: rest =>
      if String.eqb (c_processing_id computation) "eels.background_subtraction2"
         && bool_decide (c_source computation = eels_display_item) then
        match c_eels_edge_uuid computation with
        | Some value =>
            u ← uuid_of_str value;
            read_computation_map eels_display_item rest
              (<[u := computation]> computation_map)
        | None => read_computation_map eels_display_item rest computation_map
        end
      else read_computation_map eels_display_item rest computation_map
  end.

(** The second loop, over the persisted list "eels_edge_displays".
    [uuid4 k] is the value of the call of [uuid.uuid4()] in round [k]. *)
Fixpoint read_edge_displays (eels_edges : list EELSEdge) (uuid4 : nat → UUID)
    (k : nat) (eels_edge_display_d_list : list (gmap string jvalue))
    (computation_map : gmap N Computation)
    (eels_edge_displays : list EELSEdgeDisplay)
  : result (list EELSEdgeDisplay) :=
  match eels_edge_display_d_list with
  | [] => Ok eels_edge_displays
  | eels_edge_display_d :: rest =>
      eels_edge_uuid ←
        uuid_UUID (default (JStr (uuid_str (uuid4 k)))
                     (eels_edge_display_d !! "eels_edge_uuid"));
      match computation_map !! eels_edge_uuid with
      | Some computation =>
          let computation_map := delete eels_edge_uuid computation_map in
          fit_interval_graphics ←
            bound_item_value (c_fit_interval_graphics computation);
          signal_interval_graphic ←
            bound_item_value (c_signal_interval_graphic computation);
          let subtracted_data_item := c_subtracted computation in
          let background_data_item := c_background computation in
          match get_eels_edge_from_uuid eels_edges eels_edge_uuid with
          | None => Raise AssertionError
          | Some eels_edge =>
              let eels_edge_display :=
                mkEdgeDisplay eels_edge background_data_item subtracted_data_item
                  (Some signal_interval_graphic) fit_interval_graphics
                  (Some computation) None None None None in
              read_edge_displays eels_edges uuid4 (S k) rest computation_map
                (eels_edge_displays ++ [eels_edge_display])
          end
      | None =>
          read_edge_displays eels_edges uuid4 (S k) rest computation_map
            eels_edge_displays
      end
  end.


(** ** The document model, as [hide] uses it *)

Record Host : Type := mkHost {
  (** [document_model.computations] and [document_model.data_items] *)
  h_computations : list Computation;
  h_data_items : list nat;
  (** the graphics of the display item *)
  h_graphics : list nat;
  (** the listeners that are open, on any event *)
  h_listeners : list nat;
}.

Definition set_h_computations (l : list Computation) (h : Host) : Host :=
  mkHost l (h_data_items h) (h_graphics h) (h_listeners h).
Definition set_h_data_items (l : list nat) (h : Host) : Host :=
  mkHost (h_computations h) l (h_graphics h) (h_listeners h).
Definition set_h_graphics (l : list nat) (h : Host) : Host :=
  mkHost (h_computations h) (h_data_items h) l (h_listeners h).
Definition set_h_listeners (l : list nat) (h : Host) : Host :=
  mkHost (h_computations h) (h_data_items h) (h_graphics h) l.

(** [listener.close()] *)
Definition listener_close (l : nat) (h : Host) : Host :=
  set_h_listeners (filter (λ x, x ≠ l) (h_listeners h)) h.

(** [x in document_model.data_items], for an attribute that may be None. *)
Definition in_data_items (x : option nat) (h : Host) : bool :=
  match x with
  | Some i => bool_decide (i ∈ h_data_items h)
  | None => false
  end.

Definition drop_data_item (x : option nat) (l : list nat) : list nat :=
  match x with
  | Some i => filter (λ y, y ≠ i) l
  | None => l
  end.

(** What the document does when asked to remove an object it does not
    hold is not the controller's to decide: it either raises ([Some e]) or
    does nothing ([None]). *)
Variable missing_object : option exn.

Definition remove_missing (h : Host) : result Host :=
  match missing_object with
  | Some e => Raise e
  | None => Ok h
  end.

(** [document_model.remove_computation(c)]: the document drops the
    computation and, by cascade, its two result data items. *)
Definition remove_computation (c : Computation) (h : Host) : result Host :=
  if bool_decide (c_id c ∈ c_id <$> h_computations h) then
    let h := set_h_computations
               (filter (λ x, c_id x ≠ c_id c) (h_computations h)) h in
    Ok (set_h_data_items
          (drop_data_item (c_background c)
             (drop_data_item (c_subtracted c) (h_data_items h))) h)
  else remove_missing h.

(** [eels_display_item.remove_graphic(g)] *)
Definition remove_graphic (g : nat) (h : Host) : result Host :=
  if bool_decide (g ∈ h_graphics h) then
    Ok (set_h_graphics (filter (λ x, x ≠ g) (h_graphics h)) h)
  else remove_missing h.

(** [document_model.remove_data_item(x)] *)
Definition remove_data_item (x : option nat) (h : Host) : Host :=
  set_h_data_items (drop_data_item x (h_data_items h)) h.

(** [IntervalConnection.close()] *)
Definition IntervalConnection_close_listeners (c : IntervalConnection) (h : Host)
  : Host :=
  let h := match ic_interval_graphic_listener c with
           | Some l => listener_close l h
           | None => h
           end in
  match ic_interval_binding c with
  | Some l => listener_close l h
  | None => h
  end.

(** [x.close()] on an attribute that may be None. *)
Definition attr_close (x : option nat) (h : Host) : result Host :=
  match x with
  | Some l => Ok (listener_close l h)
  | None => Raise AttributeError
  end.

(** [for l in ls: l.close()] on an attribute that may be None. *)
Definition attr_close_all (ls : option (list nat)) (h : Host) : result Host :=
  match ls with
  | Some ls => Ok (foldl (λ h l, listener_close l h) h ls)
  | None => Raise TypeError
  end.

(** [IntervalListConnection.close()] *)
Definition IntervalListConnection_close (c : IntervalListConnection) (h : Host)
  : result Host :=
  h ← attr_close (ilc_item_inserted_event_listener c) h;
  h ← attr_close (ilc_item_removed_event_listener c) h;
  h ← attr_close (ilc_item_value_changed_event_listener c) h;
  h ← attr_close_all (ilc_property_changed_listeners c) h;
  attr_close_all (ilc_about_to_be_removed_listeners c) h.

(** [EELSEdgeDisplay.hide(document_model, eels_display_item)] *)
Definition hide (self : EELSEdgeDisplay) (h : Host)
  : result (EELSEdgeDisplay * Host) :=
  let h := match ed_signal_interval_connection self with
           | Some c => IntervalConnection_close_listeners c h
           | None => h
           end in
  h ← match ed_interval_list_connection self with
      | Some c => IntervalListConnection_close c h
      | None => Ok h
      end;
  let h := match ed_signal_interval_about_to_close_connection self with
           | Some l => listener_close l h
           | None => h
           end in
  let h := match ed_computation_about_to_close_connection self with
           | Some l => listener_close l h
           | None => h
           end in
  h ← match ed_computation self with
      | Some c => remove_computation c h
      | None => Ok h
      end;
  h ← match ed_signal_interval_graphic self with
      | Some g => remove_graphic g h
      | None => Ok h
      end;
  h ← for_each remove_graphic (ed_fit_interval_graphics self) h;
  let '(background_data_item, h) :=
    if in_data_items (ed_background_data_item self) h
    then (None, remove_data_item (ed_background_data_item self) h)
    else (ed_background_data_item self, h) in
  let '(signal_data_item, h) :=
    if in_data_items (ed_signal_data_item self) h
    then (None, remove_data_item (ed_signal_data_item self) h)
    else (ed_signal_data_item self, h) in
  Ok (mkEdgeDisplay (ed_eels_edge self) background_data_item signal_data_item
        None [] None None None None None, h).

(** The listeners an edge display holds open, through its connections and
    its own two subscriptions. *)
Definition option_list {A} (o : option A) : list A :=
  match o with Some a => [a] | None => [] end.

Definition subscriptions (self : EELSEdgeDisplay) : list nat :=
  match ed_signal_interval_connection self with
  | Some c => option_list (ic_interval_graphic_listener c)
              ++ option_list (ic_interval_binding c)
  | None => []
  end
  ++ match ed_interval_list_connection self with
     | Some c => option_list (ilc_item_inserted_event_listener c)
                 ++ option_list (ilc_item_removed_event_listener c)
                 ++ option_list (ilc_item_value_changed_event_listener c)
                 ++ default [] (ilc_property_changed_listeners c)
                 ++ default [] (ilc_about_to_be_removed_listeners c)
     | None => []
     end
  ++ option_list (ed_signal_interval_about_to_close_connection self)
  ++ option_list (ed_computation_about_to_close_connection self).




(** The list parallelism of the connection: as many graphics as fit
    intervals, and each graphic at the conversion of the fit interval of
    its index. *)
Definition parallel (eels_data_len : Z) (w : ListWorld) : Prop :=
  Forall2 (λ x g, ∃ v, to_fractional_interval eels_data_len x = Ok v
                       ∧ lw_interval w !! g = Some v)
    (edge_fit_eels_intervals (lw_edge w)) (lw_fit_interval_graphics w).

(** ** Predicates and values used in the statements *)


(** The graphics of a display: the signal graphic and the fit graphics. *)
Definition display_graphics (self : EELSEdgeDisplay) : list nat :=
  option_list (ed_signal_interval_graphic self) ++ ed_fit_interval_graphics self.




(** Closing listeners leaves the document as it is. *)
Definition same_doc (h h' : Host) : Prop :=
  h_computations h' = h_computations h
  ∧ h_data_items h' = h_data_items h
  ∧ h_graphics h' = h_graphics h.

(** An edge whose attributes hold what their annotations say: the signal
    interval is an interval or None, the shell a shell or None. *)
Definition well_typed (e : EELSEdge) : Prop :=
  match edge_signal_eels_interval e with PyShell _ => False | _ => True end
  ∧ match edge_electron_shell e with PyInterval _ => False | _ => True end.

(** What the round trip needs from [uuid] and from [PeriodicTable]: the
    string of the UUID parses back, a shell object is true and comes back
    from its dict, and no dict gives no shell. *)
Definition conversions_round_trip (e : EELSEdge) : Prop :=
  uuid_of_str (uuid_str (edge_uuid e)) = Ok (edge_uuid e)
  ∧ match edge_electron_shell e with
    | PyShell s =>
        shell_truthy s = true
        ∧ shell_from_d (JDict (shell_write_to_dict s)) = Ok (Some s)
    | _ => shell_from_d JNone = Ok None
    end.

(** The interval object that [convert_back] makes of a graphic interval,
    and the graphic interval that [convert] makes of it. *)
Definition back (id : nat) (eels_data_len : Z) (v : frac) : EELSInterval :=
  EELSInterval_init id
    (Some (convert_to_calibrated_value (fmul v.1 eels_data_len)))
    (Some (convert_to_calibrated_value (fmul v.2 eels_data_len))).

Definition forth (eels_data_len : Z) (v : frac) : frac :=
  (fdiv (convert_from_calibrated_value
           (convert_to_calibrated_value (fmul v.1 eels_data_len))) eels_data_len,
   fdiv (convert_from_calibrated_value
           (convert_to_calibrated_value (fmul v.2 eels_data_len))) eels_data_len).

(** What [read_computation_map] lets into the map. *)
Definition background_subtraction_of (eels_display_item : option nat)
    (computations : list Computation) (u : UUID) (c : Computation) : Prop :=
  c ∈ computations
  ∧ c_processing_id c = "eels.background_subtraction2"
  ∧ c_source c = eels_display_item
  ∧ ∃ value, c_eels_edge_uuid c = Some value ∧ uuid_of_str value = Ok u.

(** A display as [__read] rebuilds it from a computation of the map. *)
Definition rebuilt_from (eels_edges : list EELSEdge) (m : gmap N Computation)
    (d : EELSEdgeDisplay) : Prop :=
  ∃ c, m !! get_uuid (ed_eels_edge d) = Some c
       ∧ ed_eels_edge d ∈ eels_edges
       ∧ ed_computation d = Some c
       ∧ c_fit_interval_graphics c = Some (ed_fit_interval_graphics d)
       ∧ c_signal_interval_graphic c = ed_signal_interval_graphic d
       ∧ ed_signal_data_item d = c_subtracted c
       ∧ ed_background_data_item d = c_background c
       ∧ subscriptions d = [].

(** The data items that the document removes by cascade when [hide]
    removes the computation of a display: its two results, when the
    computation is in the document. *)
Definition cascaded (self : EELSEdgeDisplay) (h : Host) : list nat :=
  match ed_computation self with
  | Some c =>
      if bool_decide (c_id c ∈ c_id <$> h_computations h)
      then option_list (c_subtracted c) ++ option_list (c_background c)
      else []
  | None => []
  end.

(** A list connection whose lists go together, as the constructor leaves
    them on the lists that [show] passes: one property-changed listener per
    fit graphic, in the order of the graphics; the graphics are distinct
    objects with an interval; and there are as many of them as the edge
    has fit intervals. *)
Definition connected (w : ListWorld) : Prop :=
  l_graphic <$> lw_property_changed_listeners w = lw_fit_interval_graphics w
  ∧ NoDup (lw_fit_interval_graphics w)
  ∧ length (lw_fit_interval_graphics w)
    = length (edge_fit_eels_intervals (lw_edge w))
  ∧ Forall (λ g, is_Some (lw_interval w !! g)) (lw_fit_interval_graphics w).

(** ** Properties of edges *)

(** C1 (as the code behaves): assigning [e.electron_shell = s] sends exactly
    one property-changed("electron_shell") notification, but it stores [s]
    in the signal interval attribute: the shell getter still returns the old
    shell and the signal interval getter returns [s]. *)
Theorem set_electron_shell_overwrites_signal (e : EELSEdge) (s : pyobj) :
  get_electron_shell (set_electron_shell s e).1 = get_electron_shell e
  ∧ get_signal_eels_interval (set_electron_shell s e).1 = s
  ∧ (set_electron_shell s e).2 = [property_changed "electron_shell"].
Proof. done. Qed.

Lemma or_dict_get_JNone key : or_dict_get JNone key = Ok None.
Proof. done. Qed.

Lemma from_d_JNone id :
  EELSInterval_from_d id JNone = Ok (EELSInterval_init id None None).
Proof. done. Qed.

(** C10: an edge built from a dict in which "signal_eels_interval" is absent
    or maps to None holds an empty interval object, never None; and the
    constructor does return an edge whenever the uuid, fit-interval and shell
    entries of the dict can be read. *)
Theorem init_from_d_signal_never_none
    (uuid4_a uuid4_b : UUID) (next : nat) (signal : pyobj)
    (fits : option (list EELSInterval)) (shell : pyobj) (d : gmap string jvalue)
    (Hsig : d !! "signal_eels_interval" = None
            ∨ d !! "signal_eels_interval" = Some JNone) :
  (∀ e, EELSEdge_init uuid4_a uuid4_b next signal fits shell (Some d) = Ok e →
        get_signal_eels_interval e = PyInterval (EELSInterval_init next None None)
        ∧ get_signal_eels_interval e ≠ PyNone)
  ∧ (∀ u ds fs sh,
        uuid_UUID (default (JStr (uuid_str uuid4_b)) (d !! "uuid")) = Ok u →
        jiter (default (JList []) (d !! "fit_eels_intervals")) = Ok ds →
        from_d_all (S next) ds = Ok fs →
        shell_from_d (default JNone (d !! "electron_shell")) = Ok sh →
        EELSEdge_init uuid4_a uuid4_b next signal fits shell (Some d)
        = Ok (mkEdge u (PyInterval (EELSInterval_init next None None)) fs
                (of_shell sh))).
Proof.
  assert (Hd : default JNone (d !! "signal_eels_interval") = JNone)
    by (destruct Hsig as [-> | ->]; done).
  split.
  - intros e. unfold EELSEdge_init. rewrite Hd, from_d_JNone.
    destruct (uuid_UUID _) as [u | |]; simpl; try done.
    destruct (jiter _) as [ds | |]; simpl; try done.
    destruct (from_d_all _ _) as [fs | |]; simpl; try done.
    destruct (shell_from_d _) as [sh | |]; simpl; try done.
    intros [= <-]. done.
  - intros u ds fs sh Hu Hds Hfs Hsh. unfold EELSEdge_init.
    rewrite Hd, from_d_JNone, Hu. simpl. rewrite Hds. simpl.
    rewrite Hfs. simpl. rewrite Hsh. done.
Qed.

(** ** Removing a fit interval by index

    [list.remove] finds the element to drop by [==], which is identity on
    interval objects: when every object occurs once in the list, it drops
    the element of the given index. *)

Lemma Py_remove_distinct (l : list EELSInterval) (k : nat) (x : EELSInterval) :
  NoDup (oid <$> l) → l !! k = Some x →
  Py.remove interval_eqb x l = Ok (delete k l).
Proof.
  revert k. induction l as [| y l IH]; intros k Hnd Hk; [done |].
  rewrite fmap_cons in Hnd. apply NoDup_cons in Hnd as [Hy Hnd].
  destruct k as [| k]; simpl in *.
  - injection Hk as ->. unfold interval_eqb. by rewrite Nat.eqb_refl.
  - unfold interval_eqb at 1.
    destruct (Nat.eqb (oid y) (oid x)) eqn:Heq.
    + apply Nat.eqb_eq in Heq. exfalso. apply Hy. rewrite Heq.
      apply list_elem_of_fmap. exists x. split; [done |].
      by eapply list_elem_of_lookup_2.
    + by rewrite (IH k Hnd Hk).
Qed.

Lemma remove_fit_eels_interval_distinct (e : EELSEdge) (index : Z) (k : nat)
    (x : EELSInterval) :
  NoDup (oid <$> edge_fit_eels_intervals e) →
  Py.norm (edge_fit_eels_intervals e) index = Some k →
  edge_fit_eels_intervals e !! k = Some x →
  remove_fit_eels_interval index e
  = Ok (with_fits e (delete k (edge_fit_eels_intervals e)),
        [item_removed "fit_eels_intervals" x index]).
Proof.
  intros Hnd Hnorm Hk. unfold remove_fit_eels_interval, Py.getitem.
  rewrite Hnorm, Hk. simpl. by rewrite (Py_remove_distinct _ k x Hnd Hk).
Qed.

(** ** Properties of [hide] *)

Lemma bind_Ok {A B} (m : result A) (f : A → result B) (b : B) :
  (m ≫= f) = Ok b → ∃ a, m = Ok a ∧ f a = Ok b.
Proof. destruct m as [a | |]; simpl; [eauto | done | done]. Qed.

Ltac inv_bind H :=
  let a := fresh "x" in
  let Ha := fresh "Hx" in
  apply bind_Ok in H as (a & Ha & H).

Lemma in_data_items_remove_same x h :
  in_data_items x (remove_data_item x h) = false.
Proof.
  destruct x as [i |]; [| done]. simpl. apply bool_decide_eq_false.
  rewrite list_elem_of_filter. tauto.
Qed.


















Lemma same_doc_refl h : same_doc h h.
Proof. done. Qed.

Lemma same_doc_trans h h' h'' : same_doc h h' → same_doc h' h'' → same_doc h h''.
Proof. unfold same_doc. intros (-> & -> & ->) (-> & -> & ->). done. Qed.

Lemma same_doc_option (o : option nat) h :
  same_doc h (match o with Some l => listener_close l h | None => h end).
Proof. by destruct o. Qed.

Lemma same_doc_foldl ls h :
  same_doc h (foldl (λ h l, listener_close l h) h ls).
Proof.
  revert h. induction ls as [| l ls IH]; intros h; simpl; [done |].
  eapply same_doc_trans; [| apply IH]. done.
Qed.






(** ** Properties of [EELSQuantificationDisplay.__read] *)



(** ** The round trip of an edge through its dict *)

Lemma from_d_write_to_dict id (i : EELSInterval) :
  EELSInterval_from_d id (JDict (EELSInterval_write_to_dict i))
  = Ok (EELSInterval_init id (start_ev i) (end_ev i)).
Proof.
  destruct i as [o [s |] [e |]];
    unfold EELSInterval_from_d, or_dict_get, EELSInterval_write_to_dict; simpl.
  - rewrite bool_decide_eq_false_2 by (apply insert_non_empty). simpl.
    rewrite lookup_insert_ne by done.
    by rewrite !lookup_insert_eq.
  - rewrite bool_decide_eq_false_2 by (apply insert_non_empty). simpl.
    rewrite lookup_insert_eq. by rewrite lookup_insert_ne by done.
  - rewrite bool_decide_eq_false_2 by (apply insert_non_empty). simpl.
    rewrite lookup_insert_eq. by rewrite lookup_insert_ne by done.
  - by rewrite bool_decide_eq_true_2 by done.
Qed.

Lemma from_d_all_write_to_dict id (l : list EELSInterval) :
  ∃ l', from_d_all id (JDict <$> (EELSInterval_write_to_dict <$> l)) = Ok l'
        ∧ bounds <$> l' = bounds <$> l.
Proof.
  revert id. induction l as [| i l IH]; intros id; [by exists [] |].
  rewrite !fmap_cons. cbn [from_d_all]. rewrite from_d_write_to_dict.
  destruct (IH (S id)) as (l' & Hl & Hl').
  unfold mbind, result_mbind, result_bind. rewrite Hl.
  eexists; split; [done |]. rewrite !fmap_cons. by rewrite Hl'.
Qed.

(** C7 (amended): writing an edge to its dict and building an edge from the
    dict returns an edge with the same UUID, the same bounds on every fit
    interval, the same shell, and the same bounds on the signal interval
    when the edge has one; an edge without a signal interval comes back
    with an empty interval object, not with None. *)
Theorem write_read_round_trip
    (e : EELSEdge) (uuid4_a uuid4_b : UUID) (next : nat) (signal : pyobj)
    (fits : option (list EELSInterval)) (shell : pyobj)
    (Htyped : well_typed e) (Hconv : conversions_round_trip e) :
  ∃ d e',
    EELSEdge_write_to_dict e = Ok d
    ∧ EELSEdge_init uuid4_a uuid4_b next signal fits shell (Some d) = Ok e'
    ∧ get_uuid e' = get_uuid e
    ∧ bounds <$> get_fit_eels_intervals e' = bounds <$> get_fit_eels_intervals e
    ∧ get_electron_shell e' = get_electron_shell e
    ∧ match get_signal_eels_interval e with
      | PyInterval i =>
          ∃ i', get_signal_eels_interval e' = PyInterval i'
                ∧ bounds i' = bounds i
      | _ =>
          get_signal_eels_interval e'
          = PyInterval (EELSInterval_init next None None)
      end.
Proof.
  destruct e as [u sig fs sh]. destruct Htyped as [Hsig Hsh].
  destruct Hconv as [Hu Hshell]. simpl in *.
  destruct (from_d_all_write_to_dict (S next) fs) as (fs' & Hfs & Hbounds).
  assert (Hnil : ¬ (0 < length fs)%nat → fs' = [] ∧ fs = []).
  { intros Hlen. destruct fs; [| simpl in Hlen; lia].
    simpl in Hfs. by injection Hfs as <-. }
  unfold EELSEdge_write_to_dict, EELSEdge_init. simpl.
  destruct sig as [| i | s]; [| | done]; destruct sh as [| i' | s']; try done;
    simpl.
  all: try match type of Hshell with
           | _ ∧ _ => destruct Hshell as [-> Hshell]; simpl
           end.
  all: case_bool_decide as Hlen; [| destruct (Hnil Hlen) as [-> ->]].
  all: eexists _, _; split; [reflexivity |].
  all: repeat first [ rewrite lookup_insert_eq
                    | (rewrite lookup_insert_ne by done)
                    | rewrite lookup_singleton_eq
                    | (rewrite lookup_singleton_ne by done) ].
  all: simpl; rewrite Hu; simpl.
  all: rewrite ?from_d_write_to_dict, ?from_d_JNone; simpl.
  all: rewrite ?Hfs; simpl; rewrite Hshell; simpl.
  all: split; [reflexivity |]; simpl; repeat split; eauto.
Qed.

(** ** Properties of [IntervalConnection] *)

Lemma convert_back_Ok id eels_data_len v :
  eels_data_len > 0 →
  convert_back id eels_data_len v = Ok (back id eels_data_len v).
Proof.
  intros Hlen. unfold convert_back, from_fractional_interval.
  by rewrite decide_True by done.
Qed.

Lemma convert_back_forth id eels_data_len v :
  eels_data_len > 0 →
  to_fractional_interval eels_data_len (back id eels_data_len v)
  = Ok (forth eels_data_len v).
Proof.
  intros Hlen. unfold to_fractional_interval, back. simpl.
  by rewrite decide_True by done.
Qed.

Lemma to_fractional_interval_positive eels_data_len x v :
  to_fractional_interval eels_data_len x = Ok v → eels_data_len > 0.
Proof. unfold to_fractional_interval. by case_decide. Qed.

(** C5 (amended): on a live connection to the signal interval, one change
    of the interval of the graphic writes the converted-back interval into
    the edge exactly once; the notification of the edge makes the binding
    write the converted value back into the graphic once; the guard stops
    the handler of the graphic there, so no second write into the edge
    follows. *)
Theorem graphic_change_writes_edge_once
    (eels_data_len : Z) (fuel : nat) (w : ConnWorld) (v : frac)
    (Hlen : eels_data_len > 0)
    (Hblocked : cw_blocked w = false)
    (Hlistener : cw_interval_graphic_listener w = true)
    (Hbinding : cw_interval_binding w = true) :
  let x := back (cw_next_oid w) eels_data_len v in
  ∃ w',
    conn_exec eels_data_len "signal_eels_interval" (S (S (S fuel)))
      (GraphicIntervalSet v) w = Ok w'
    ∧ cw_trace w'
      = cw_trace w ++ [GraphicIntervalSet v; SetAttr (PyInterval x);
                       GraphicIntervalSet (forth eels_data_len v)]
    ∧ edge_writes (cw_trace w') = edge_writes (cw_trace w) ++ [PyInterval x]
    ∧ graphic_writes (cw_trace w')
      = graphic_writes (cw_trace w) ++ [v; forth eels_data_len v]
    ∧ get_signal_eels_interval (cw_edge w') = PyInterval x
    ∧ cw_interval w' = forth eels_data_len v
    ∧ cw_blocked w' = false.
Proof.
  intros x. destruct w as [e iv b l bd n t]. simpl in *. subst b l bd.
  cbn [conn_exec conn_step]. unfold conn_log, set_cw_interval. simpl.
  unfold update_eels_interval, binding_update_source. simpl.
  rewrite convert_back_Ok by done. simpl.
  unfold binding_property_changed. simpl.
  rewrite convert_back_forth by done. simpl.
  unfold update_eels_interval. simpl.
  eexists. split; [reflexivity |]. simpl.
  rewrite <- !app_assoc. simpl.
  unfold edge_writes, graphic_writes. rewrite !omap_app. simpl.
  done.
Qed.

(** C6 (amended): making the connection writes nothing: the graphic keeps
    the interval it had, the edge is untouched and no call is made; the
    value of the edge reaches the graphic with the next change of the
    property, whose notification the binding turns into a write of the
    converted interval. *)
Theorem connection_init_pushes_nothing
    (eels_edge : EELSEdge) (interval : frac) (next_oid : nat) :
  let w := IntervalConnection_init eels_edge interval next_oid in
  cw_interval w = interval
  ∧ cw_edge w = eels_edge
  ∧ cw_trace w = []
  ∧ ∀ eels_data_len fuel x v,
      to_fractional_interval eels_data_len x = Ok v →
      ∃ w',
        conn_exec eels_data_len "signal_eels_interval" (S (S (S (S fuel))))
          (SetAttr (PyInterval x)) w = Ok w'
        ∧ graphic_writes (cw_trace w') = [v; forth eels_data_len v].
Proof.
  intros w. repeat split.
  intros eels_data_len fuel x v Hv.
  pose proof (to_fractional_interval_positive _ _ _ Hv) as Hlen.
  subst w. unfold IntervalConnection_init.
  cbn [conn_exec conn_step]. unfold conn_log. simpl.
  unfold binding_property_changed. simpl. rewrite Hv. simpl.
  unfold update_eels_interval, binding_update_source. simpl.
  rewrite convert_back_Ok by done. simpl.
  unfold binding_property_changed. simpl.
  rewrite convert_back_forth by done. simpl.
  unfold update_eels_interval. simpl.
  eexists. split; [reflexivity |]. done.
Qed.

(** ** Properties of [IntervalListConnection] *)











Lemma Py_norm_Some {A} (l : list A) (i : Z) (k : nat) :
  Py.norm l i = Some k →
  (k < length l)%nat
  ∧ (Z.of_nat k = i ∨ Z.of_nat k = i + Z.of_nat (length l)).
Proof.
  unfold Py.norm. repeat case_decide; intros [= <-]; lia.
Qed.




(** The constructor leaves the lists together when it is given distinct
    graphics, one per fit interval, and each listener then carries the
    position of its graphic. *)
Lemma IntervalListConnection_init_connected (eels_edge : EELSEdge)
    (display_graphics : list nat) (interval : gmap nat frac)
    (computation_objects fit_interval_graphics : list nat)
    (next_graphic next_oid : nat) :
  NoDup fit_interval_graphics →
  length fit_interval_graphics = length (edge_fit_eels_intervals eels_edge) →
  Forall (λ g, is_Some (interval !! g)) fit_interval_graphics →
  let w := IntervalListConnection_init eels_edge display_graphics interval
             computation_objects fit_interval_graphics next_graphic next_oid in
  connected w
  ∧ ∀ i g, fit_interval_graphics !! i = Some g →
           lw_property_changed_listeners w !! i
           = Some (mkListener g (Z.of_nat i)).
Proof.
  intros Hnd Hlen Hint w. split.
  - split; [| done]. simpl. unfold initial_listeners.
    apply list_eq. intros i. rewrite list_lookup_fmap, list_lookup_imap.
    by destruct (fit_interval_graphics !! i).
  - intros i g Hg. simpl. unfold initial_listeners.
    by rewrite list_lookup_imap, Hg.
Qed.


(** ** Further properties of intervals *)

Lemma write_to_dict_lookup (i : EELSInterval) (k : string) :
  EELSInterval_write_to_dict i !! k
  = if decide (k = "start_ev") then start_ev i
    else if decide (k = "end_ev") then end_ev i else None.
Proof.
  destruct i as [o [s |] [e |]]; unfold EELSInterval_write_to_dict; simpl;
    repeat case_decide; subst;
    repeat first [ rewrite lookup_insert_eq
                 | (rewrite lookup_insert_ne by done)
                 | rewrite lookup_empty ];
    done.
Qed.

(** X1: an interval written to its dict and read back has the same two
    bounds, absent bounds staying absent, whatever identity the new object
    gets. *)
Theorem interval_dict_round_trip (id : nat) (i : EELSInterval) :
  ∃ i', EELSInterval_from_d id (JDict (EELSInterval_write_to_dict i)) = Ok i'
        ∧ bounds i' = bounds i
        ∧ oid i' = id.
Proof. rewrite from_d_write_to_dict. by eexists. Qed.

(** X2: the dict of an interval holds "start_ev" exactly when the start is
    present, "end_ev" exactly when the end is present, each with the value
    of the bound, and no other key. *)
Theorem interval_dict_only_present_bounds (i : EELSInterval) :
  EELSInterval_write_to_dict i !! "start_ev" = start_ev i
  ∧ EELSInterval_write_to_dict i !! "end_ev" = end_ev i
  ∧ dom (EELSInterval_write_to_dict i)
    ⊆ ({["start_ev"; "end_ev"]} : gset string)
  ∧ (EELSInterval_write_to_dict i = ∅ ↔ bounds i = (None, None)).
Proof.
  split; [by rewrite write_to_dict_lookup |].
  split; [by rewrite write_to_dict_lookup |].
  split.
  - intros k [v Hk]%elem_of_dom. rewrite write_to_dict_lookup in Hk.
    repeat case_decide; set_solver.
  - destruct i as [o [s |] [e |]]; unfold EELSInterval_write_to_dict, bounds;
      simpl; split; try done; intros H; exfalso;
      by eapply insert_non_empty.
Qed.

(** X3: [from_d] never fails on None or on a dict, where it reads the two
    keys and ignores the others; an empty string or list counts as no
    dict; any other string or list has no [get] and raises
    AttributeError. *)
Theorem from_d_edge_cases (id : nat) :
  EELSInterval_from_d id JNone = Ok (EELSInterval_init id None None)
  ∧ (∀ m, EELSInterval_from_d id (JDict m)
          = Ok (EELSInterval_init id (m !! "start_ev") (m !! "end_ev")))
  ∧ (∀ s, EELSInterval_from_d id (JStr s)
          = if decide (s = "") then Ok (EELSInterval_init id None None)
            else Raise AttributeError)
  ∧ (∀ l, EELSInterval_from_d id (JList l)
          = if decide (l = []) then Ok (EELSInterval_init id None None)
            else Raise AttributeError).
Proof.
  split; [done |]. split; [| split].
  - intros m. unfold EELSInterval_from_d, or_dict_get. simpl.
    case_bool_decide as Hm; simpl; [by subst; rewrite !lookup_empty | done].
  - intros s. unfold EELSInterval_from_d, or_dict_get. simpl.
    destruct s; simpl; done.
  - intros l. unfold EELSInterval_from_d, or_dict_get. simpl.
    destruct l; simpl; done.
Qed.

(** X4: the conversion to a fractional interval returns exactly when the
    data length is positive and both bounds are present; a data length
    that is not positive fails the assertion first, whatever the bounds. *)
Theorem to_fractional_interval_returns_iff (eels_data_len : Z) (i : EELSInterval) :
  (is_ok (to_fractional_interval eels_data_len i)
   ↔ eels_data_len > 0 ∧ is_Some (start_ev i) ∧ is_Some (end_ev i))
  ∧ (to_fractional_interval eels_data_len i = Raise AssertionError
     ↔ ¬ eels_data_len > 0)
  ∧ (to_fractional_interval eels_data_len i = Raise TypeError
     ↔ eels_data_len > 0 ∧ (start_ev i = None ∨ end_ev i = None)).
Proof.
  unfold to_fractional_interval.
  destruct i as [o [s |] [e |]]; simpl; case_decide; simpl;
    repeat split; try done; try tauto;
    try (intros (? & ? & ?); by (done || eapply is_Some_None));
    try (intros [? [? | ?]]; done);
    try (intros (? & [? ?] & [? ?]); done);
    eauto.
Qed.

(** X5: converting a graphic interval back to an interval and forth again
    never fails on the bounds: the result of [convert_back] always has
    both, so the composition fails only on a data length that is not
    positive. *)
Theorem convert_back_then_convert (id : nat) (eels_data_len : Z) (v : frac) :
  (convert_back id eels_data_len v
   ≫= λ x, convert eels_data_len (PyInterval x))
  = if decide (eels_data_len > 0) then Ok (forth eels_data_len v)
    else Raise AssertionError.
Proof.
  unfold convert_back, from_fractional_interval. case_decide as Hlen; [| done].
  simpl. unfold to_fractional_interval. simpl. by rewrite decide_True.
Qed.

(** ** Further properties of the fit interval list of an edge *)

Lemma Py_norm_is_Some {A} (l : list A) (i : Z) :
  is_Some (Py.norm l i) ↔ - Z.of_nat (length l) ≤ i < Z.of_nat (length l).
Proof.
  unfold Py.norm. repeat case_decide; split; intros Hn;
    try (by eexists); try lia; by destruct Hn.
Qed.

Lemma Py_norm_nonneg {A} (l : list A) (k : nat) :
  (k < length l)%nat → Py.norm l (Z.of_nat k) = Some k.
Proof.
  intros Hk. unfold Py.norm. rewrite decide_True by lia. by rewrite Nat2Z.id.
Qed.

Lemma Py_insert_pos_le {A} (l : list A) (i : Z) :
  (Py.insert_pos l i ≤ length l)%nat.
Proof. unfold Py.insert_pos. case_decide; lia. Qed.

Lemma Py_insert_length {A} (l : list A) (i : Z) (x : A) :
  length (Py.insert l i x) = S (length l).
Proof.
  unfold Py.insert. pose proof (Py_insert_pos_le l i).
  rewrite length_app, length_take. simpl. rewrite length_drop. lia.
Qed.

Lemma Py_insert_lookup {A} (l : list A) (i : Z) (x : A) :
  Py.insert l i x !! Py.insert_pos l i = Some x.
Proof.
  unfold Py.insert. pose proof (Py_insert_pos_le l i).
  rewrite lookup_app_r by (rewrite length_take; lia).
  rewrite length_take. by replace (_ - _)%nat with 0%nat by lia.
Qed.

Lemma Py_insert_delete {A} (l : list A) (i : Z) (x : A) :
  delete (Py.insert_pos l i) (Py.insert l i x) = l.
Proof.
  unfold Py.insert. cbv zeta. pose proof (Py_insert_pos_le l i) as Hle.
  generalize dependent (Py.insert_pos l i). intros k Hle.
  assert (Hk : length (take k l) = k) by (rewrite length_take; lia).
  rewrite <- Hk at 1. rewrite delete_middle. apply take_drop.
Qed.

Lemma Py_remove_Ok {A} (eqb : A → A → bool) (x : A) (l : list A) :
  (∀ a, eqb a a = true) → x ∈ l →
  ∃ j, Py.remove eqb x l = Ok (delete j l)
       ∧ (∃ y, l !! j = Some y ∧ eqb y x = true)
       ∧ ∀ i y, (i < j)%nat → l !! i = Some y → eqb y x = false.
Proof.
  intros Hrefl. induction l as [| y l IH]; intros Hin.
  - by apply elem_of_nil in Hin.
  - simpl. destruct (eqb y x) eqn:Hy.
    + exists 0%nat. split; [done |]. split; [by exists y |]. intros; lia.
    + apply elem_of_cons in Hin as [-> | Hin]; [by rewrite Hrefl in Hy |].
      destruct (IH Hin) as (j & -> & Hj & Hbefore).
      exists (S j). split; [done |]. split; [done |].
      intros [| i] z Hi Hz; simpl in Hz; [by injection Hz as <- |].
      apply (Hbefore i); [lia | done].
Qed.

(** X7: [append_fit_eels_interval] puts the interval after all the others,
    which keep their places, and announces it at the index that was the
    length of the list. *)
Theorem append_fit_eels_interval_last (x : EELSInterval) (e : EELSEdge) :
  append_fit_eels_interval x e
  = (with_fits e (edge_fit_eels_intervals e ++ [x]),
     [item_inserted "fit_eels_intervals" x
        (Z.of_nat (length (edge_fit_eels_intervals e)))]).
Proof.
  unfold append_fit_eels_interval, insert_fit_eels_interval, Py.insert,
    Py.insert_pos.
  rewrite decide_False by lia. rewrite Z.min_id, Nat2Z.id.
  by rewrite take_ge, drop_ge by lia.
Qed.

(** X8: for an index within the range of a C [ssize_t],
    [insert_fit_eels_interval] raises no IndexError: an index beyond either
    end is clamped to the list, the list grows by exactly one element, the
    others keep their order, and one notification carries the index as it
    was given (not the clamped position). *)
Theorem insert_fit_eels_interval_any_index (index : Z) (x : EELSInterval)
    (e : EELSEdge) (Hindex : Py.ssize_t index) :
  let e' := (insert_fit_eels_interval index x e).1 in
  let k := Py.insert_pos (edge_fit_eels_intervals e) index in
  length (edge_fit_eels_intervals e') = S (length (edge_fit_eels_intervals e))
  ∧ edge_fit_eels_intervals e' !! k = Some x
  ∧ delete k (edge_fit_eels_intervals e') = edge_fit_eels_intervals e
  ∧ (0 ≤ index ≤ Z.of_nat (length (edge_fit_eels_intervals e)) ↔
     Z.of_nat k = index)
  ∧ (insert_fit_eels_interval index x e).2
    = [item_inserted "fit_eels_intervals" x index].
Proof.
  simpl. split; [apply Py_insert_length |].
  split; [apply Py_insert_lookup |]. split; [apply Py_insert_delete |].
  split; [| done]. unfold Py.insert_pos. case_decide; lia.
Qed.

(** X9: [remove_fit_eels_interval] returns exactly when the index is within
    the list, counting from the end when negative; it then never raises
    ValueError, drops one element, namely the first one that is the same
    object as the element of that index, and announces that element with
    the index as given. *)
Theorem remove_fit_eels_interval_first_identical (index : Z) (e : EELSEdge) :
  (is_ok (remove_fit_eels_interval index e)
   ↔ - Z.of_nat (length (edge_fit_eels_intervals e)) ≤ index
       < Z.of_nat (length (edge_fit_eels_intervals e)))
  ∧ (¬ is_ok (remove_fit_eels_interval index e) →
     remove_fit_eels_interval index e = Raise IndexError)
  ∧ ∀ e' ns,
      remove_fit_eels_interval index e = Ok (e', ns) →
      ∃ k j x,
        Py.norm (edge_fit_eels_intervals e) index = Some k
        ∧ edge_fit_eels_intervals e !! k = Some x
        ∧ (j ≤ k)%nat
        ∧ (∃ y, edge_fit_eels_intervals e !! j = Some y ∧ oid y = oid x)
        ∧ (∀ i y, (i < j)%nat → edge_fit_eels_intervals e !! i = Some y →
                  oid y ≠ oid x)
        ∧ e' = with_fits e (delete j (edge_fit_eels_intervals e))
        ∧ ns = [item_removed "fit_eels_intervals" x index].
Proof.
  assert (Hcases : (∃ k x j,
              Py.norm (edge_fit_eels_intervals e) index = Some k
              ∧ edge_fit_eels_intervals e !! k = Some x
              ∧ remove_fit_eels_interval index e
                = Ok (with_fits e (delete j (edge_fit_eels_intervals e)),
                      [item_removed "fit_eels_intervals" x index])
              ∧ (∃ y, edge_fit_eels_intervals e !! j = Some y
                      ∧ interval_eqb y x = true)
              ∧ ∀ i y, (i < j)%nat → edge_fit_eels_intervals e !! i = Some y →
                       interval_eqb y x = false)
            ∨ (Py.norm (edge_fit_eels_intervals e) index = None
               ∧ remove_fit_eels_interval index e = Raise IndexError)).
  { unfold remove_fit_eels_interval, Py.getitem.
    destruct (Py.norm _ index) as [k |] eqn:Hnorm; [left | by right].
    destruct (Py_norm_Some _ _ _ Hnorm) as [Hk _].
    destruct (lookup_lt_is_Some_2 _ _ Hk) as [x Hx]. rewrite Hx. simpl.
    destruct (Py_remove_Ok interval_eqb x (edge_fit_eels_intervals e))
      as (j & -> & Hj & Hbefore).
    - intros a. unfold interval_eqb. apply Nat.eqb_refl.
    - by eapply list_elem_of_lookup_2.
    - simpl. by exists k, x, j. }
  destruct Hcases as [(k & x & j & Hnorm & Hx & Heq & (y & Hy & Hyx) & Hbefore)
                     | [Hnorm Heq]].
  - rewrite Heq. split; [| split].
    + split; [intros _ | done]. apply Py_norm_is_Some. by rewrite Hnorm.
    + intros []. done.
    + intros e' ns [= <- <-]. exists k, j, x.
      split; [done |]. split; [done |].
      split.
      { destruct (decide (j ≤ k)%nat) as [| Hgt]; [done |]. exfalso.
        assert (Hf : interval_eqb x x = false) by (apply (Hbefore k); [lia | done]).
        unfold interval_eqb in Hf. by rewrite Nat.eqb_refl in Hf. }
      split; [exists y; split; [done | by apply Nat.eqb_eq] |].
      split; [| done]. intros i z Hi Hz. apply Nat.eqb_neq. by eapply Hbefore.
  - rewrite Heq. split; [| split; [done |]].
    + split; [done |]. intros Hn%Py_norm_is_Some. rewrite Hnorm in Hn.
      by destruct Hn.
    + intros ? ? [=].
Qed.

(** X10: inserting a new interval object at an index within the list (from
    0 to the length) and removing at the same index gives back the edge as
    it was, the removal announcing the object that was inserted. *)
Theorem insert_then_remove_restores (index : Z) (x : EELSInterval) (e : EELSEdge)
    (Hindex : 0 ≤ index ≤ Z.of_nat (length (edge_fit_eels_intervals e)))
    (Hnew : ∀ y, y ∈ edge_fit_eels_intervals e → oid y ≠ oid x) :
  remove_fit_eels_interval index (insert_fit_eels_interval index x e).1
  = Ok (e, [item_removed "fit_eels_intervals" x index]).
Proof.
  destruct e as [u sig fs sh]. simpl in *.
  unfold remove_fit_eels_interval, Py.getitem. simpl.
  assert (Hpos : Py.insert_pos fs index = Z.to_nat index).
  { unfold Py.insert_pos. rewrite decide_False by lia. f_equal. lia. }
  assert (Hnorm : Py.norm (Py.insert fs index x) index = Some (Z.to_nat index)).
  { unfold Py.norm. rewrite Py_insert_length.
    by rewrite decide_True by lia. }
  rewrite Hnorm. rewrite <- Hpos, Py_insert_lookup. simpl.
  destruct (Py_remove_Ok interval_eqb x (Py.insert fs index x))
    as (j & -> & (y & Hy & Hyx) & Hbefore).
  - intros a. unfold interval_eqb. apply Nat.eqb_refl.
  - eapply list_elem_of_lookup_2. apply Py_insert_lookup.
  - simpl. unfold with_fits. simpl.
    assert (j = Py.insert_pos fs index) as ->; [| by rewrite Py_insert_delete].
    destruct (decide (j = Py.insert_pos fs index)) as [| Hne]; [done |]. exfalso.
    apply (Hnew y); [| by apply Nat.eqb_eq].
    rewrite <- (Py_insert_delete fs index x).
    destruct (decide (j < Py.insert_pos fs index)%nat).
    + eapply list_elem_of_lookup_2. rewrite list_lookup_delete_lt by done.
      exact Hy.
    + destruct j as [| j]; [lia |].
      eapply (list_elem_of_lookup_2 _ j).
      rewrite list_lookup_delete_ge by lia. exact Hy.
Qed.

(** X11: [set_fit_eels_interval] returns exactly when the index is within
    the list, counting from the end when negative, and raises IndexError
    otherwise; when it returns, only the fit interval of that position is
    replaced, the list keeps its length, the other attributes of the edge
    are untouched, and one notification carries the index as given. *)
Theorem set_fit_eels_interval_in_range (index : Z) (x : EELSInterval)
    (e : EELSEdge) :
  (is_ok (set_fit_eels_interval index x e)
   ↔ - Z.of_nat (length (edge_fit_eels_intervals e)) ≤ index
       < Z.of_nat (length (edge_fit_eels_intervals e)))
  ∧ (¬ is_ok (set_fit_eels_interval index x e) →
     set_fit_eels_interval index x e = Raise IndexError)
  ∧ ∀ e' ns,
      set_fit_eels_interval index x e = Ok (e', ns) →
      ∃ k,
        Py.norm (edge_fit_eels_intervals e) index = Some k
        ∧ edge_fit_eels_intervals e' !! k = Some x
        ∧ (∀ i, i ≠ k →
             edge_fit_eels_intervals e' !! i = edge_fit_eels_intervals e !! i)
        ∧ length (edge_fit_eels_intervals e')
          = length (edge_fit_eels_intervals e)
        ∧ get_uuid e' = get_uuid e
        ∧ get_signal_eels_interval e' = get_signal_eels_interval e
        ∧ get_electron_shell e' = get_electron_shell e
        ∧ ns = [item_value_changed "fit_eels_intervals" x index].
Proof.
  unfold set_fit_eels_interval, Py.setitem.
  destruct (Py.norm (edge_fit_eels_intervals e) index) as [k |] eqn:Hnorm; simpl.
  - destruct (Py_norm_Some _ _ _ Hnorm) as [Hk _].
    split; [| split].
    + split; [intros _ | done]. apply Py_norm_is_Some. by rewrite Hnorm.
    + intros []. done.
    + intros e' ns [= <- <-]. exists k. simpl.
      split; [done |]. split; [by apply list_lookup_insert_eq |].
      split; [intros i Hi; by apply list_lookup_insert_ne |].
      split; [apply length_insert | done].
  - split; [| split; [done |]].
    + split; [done |]. intros Hn%Py_norm_is_Some. rewrite Hnorm in Hn.
      by destruct Hn.
    + intros ? ? [=].
Qed.

(** ** Further properties of [EELSQuantificationDisplay.__read] *)

(** X12: [get_eels_edge_from_uuid] returns None exactly when no edge of the
    list has the UUID; otherwise it returns the first edge that has it. *)
Theorem get_eels_edge_from_uuid_first (eels_edges : list EELSEdge) (u : UUID) :
  (get_eels_edge_from_uuid eels_edges u = None
   ↔ ∀ e, e ∈ eels_edges → get_uuid e ≠ u)
  ∧ ∀ e, get_eels_edge_from_uuid eels_edges u = Some e →
         ∃ i, eels_edges !! i = Some e
              ∧ get_uuid e = u
              ∧ ∀ j e', (j < i)%nat → eels_edges !! j = Some e' →
                        get_uuid e' ≠ u.
Proof.
  induction eels_edges as [| e0 l [IHn IHs]]; simpl.
  - split; [split; [intros _ e He; by apply elem_of_nil in He | done] | done].
  - case_decide as He0.
    + split.
      * split; [done |]. intros Hall. exfalso. apply (Hall e0); [left | done].
      * intros e [= <-]. exists 0%nat. split; [done |]. split; [done |].
        intros; lia.
    + split.
      * rewrite IHn. split.
        -- intros Hall e [-> | He]%elem_of_cons; [done | by apply Hall].
        -- intros Hall e He. apply Hall. by right.
      * intros e He. destruct (IHs e He) as (i & Hi & Hu & Hbefore).
        exists (S i). split; [done |]. split; [done |].
        intros [| j] e' Hj He'; simpl in He'.
        -- by injection He' as <-.
        -- apply (Hbefore j); [lia | done].
Qed.

Lemma read_computation_map_sound eels_display_item computations m0 m :
  read_computation_map eels_display_item computations m0 = Ok m →
  ∀ u c, m !! u = Some c →
         m0 !! u = Some c
         ∨ background_subtraction_of eels_display_item computations u c.
Proof.
  revert m0. induction computations as [| c0 cs IH]; intros m0 Hm u c Hc.
  - injection Hm as <-. by left.
  - simpl in Hm.
    assert (Hrest : ∀ m1, read_computation_map eels_display_item cs m1 = Ok m →
              m1 !! u = Some c
              ∨ background_subtraction_of eels_display_item (c0 :: cs) u c).
    { intros m1 Hm1. destruct (IH m1 Hm1 u c Hc) as [? | (? & ? & ? & ?)];
        [by left | right]. split; [by right | done]. }
    destruct (String.eqb (c_processing_id c0) "eels.background_subtraction2")
      eqn:Hpid; simpl in Hm; [| by apply Hrest].
    case_bool_decide as Hsrc; simpl in Hm; [| by apply Hrest].
    destruct (c_eels_edge_uuid c0) as [value |] eqn:Hvar; [| by apply Hrest].
    inv_bind Hm. destruct (Hrest _ Hm) as [Hin | ?]; [| by right].
    destruct (decide (x = u)) as [-> | Hne].
    + rewrite lookup_insert_eq in Hin. injection Hin as <-. right.
      split; [left |]. split; [by apply String.eqb_eq |]. split; [done |].
      by exists value.
    + rewrite lookup_insert_ne in Hin by done. by left.
Qed.

(** X13: the map that [__read] builds from the computations of the document
    holds, under an edge UUID, only a computation of the document whose
    processing id is "eels.background_subtraction2", whose source is this
    display item, and whose "eels_edge_uuid" variable parses to that UUID;
    a computation of another kind or of another display item never gets
    in. *)
Theorem read_computation_map_only_own (eels_display_item : option nat)
    (computations : list Computation) (m : gmap N Computation)
    (Hread : read_computation_map eels_display_item computations ∅ = Ok m) :
  ∀ u c, m !! u = Some c →
         background_subtraction_of eels_display_item computations u c.
Proof.
  intros u c Hc.
  destruct (read_computation_map_sound _ _ _ _ Hread u c Hc) as [He | ?];
    [by rewrite lookup_empty in He | done].
Qed.

Lemma get_eels_edge_from_uuid_Some eels_edges u e :
  get_eels_edge_from_uuid eels_edges u = Some e →
  e ∈ eels_edges ∧ get_uuid e = u.
Proof.
  induction eels_edges as [| e0 l IH]; simpl; [done |].
  case_decide; [intros [= <-]; split; [left | done] |].
  intros He. destruct (IH He). split; [by right | done].
Qed.

(** X14: when the second loop of [__read] returns, it has appended displays
    to those it started with, at most one for each computation of the map
    (a computation is taken out of the map when it is used, so a UUID
    named twice is rebuilt once); each new display refers to an edge of
    the quantification, takes its graphics and data items from the
    computation stored under the UUID of that edge, and holds no
    listener. *)
Theorem read_edge_displays_rebuilds (eels_edges : list EELSEdge)
    (uuid4 : nat → UUID) (k : nat) (ds : list (gmap string jvalue))
    (m : gmap N Computation) (acc r : list EELSEdgeDisplay)
    (Hread : read_edge_displays eels_edges uuid4 k ds m acc = Ok r) :
  ∃ new,
    r = acc ++ new
    ∧ (length new ≤ size m)%nat
    ∧ (length new ≤ length ds)%nat
    ∧ Forall (rebuilt_from eels_edges m) new
    ∧ NoDup ((λ d, get_uuid (ed_eels_edge d)) <$> new).
Proof.
  revert k m acc Hread. induction ds as [| d ds IH]; intros k m acc Hread.
  - simpl in Hread. injection Hread as <-. exists []. rewrite app_nil_r.
    repeat split; simpl; try lia; constructor.
  - simpl in Hread. inv_bind Hread. rename x into u.
    destruct (m !! u) as [c |] eqn:Hc.
    + inv_bind Hread. inv_bind Hread. rename x into fgs. rename x0 into sg.
      destruct (get_eels_edge_from_uuid eels_edges u) as [e |] eqn:He;
        [| done].
      destruct (get_eels_edge_from_uuid_Some _ _ _ He) as [Hin Hu].
      destruct (IH _ _ _ Hread) as (new & -> & Hsize & Hlen & Hall & Hnd).
      assert (Hpred : size (delete u m) = pred (size m))
        by (apply map_size_delete_Some; by exists c).
      unfold UUID in *. rewrite Hpred in Hsize.
      assert (size m ≠ 0)%nat.
      { intros H0. apply map_size_empty_inv in H0. subst m.
        by rewrite lookup_empty in Hc. }
      eexists (_ :: new). rewrite <- app_assoc. split; [done |].
      split; [simpl; lia |]. split; [simpl; lia |].
      assert (Hnew : Forall (rebuilt_from eels_edges m) new
                     ∧ u ∉ (λ d, get_uuid (ed_eels_edge d)) <$> new).
      { split.
        - eapply Forall_impl; [exact Hall |].
          intros d' (c' & Hc' & ?). exists c'. split; [| done].
          apply lookup_delete_Some in Hc'. tauto.
        - intros (d' & Hd' & Hin')%list_elem_of_fmap.
          rewrite Forall_forall in Hall.
          destruct (Hall d' Hin') as (c' & Hc' & _).
          rewrite <- Hd' in Hc'. by rewrite lookup_delete_eq in Hc'. }
      destruct Hnew as [Hall' Hfresh].
      split.
      * constructor; [| done]. exists c. simpl. rewrite Hu.
        assert (c_fit_interval_graphics c = Some fgs)
          by (destruct (c_fit_interval_graphics c); simpl in *; congruence).
        assert (c_signal_interval_graphic c = Some sg)
          by (destruct (c_signal_interval_graphic c); simpl in *; congruence).
        done.
      * rewrite fmap_cons. simpl. rewrite Hu. by constructor.
    + destruct (IH _ _ _ Hread) as (new & -> & Hsize & Hlen & Hall & Hnd).
      exists new. repeat split; try done. simpl. lia.
Qed.

(** ** Further properties of the connections and of [hide] *)

(** X15: after [close], the connection propagates nothing: a change of the
    graphic leaves the edge as it is, a change of the signal interval of
    the edge (to any value, None included) leaves the graphic as it is,
    and neither makes any further call. *)
Theorem closed_connection_propagates_nothing (eels_data_len : Z) (fuel : nat)
    (w : ConnWorld) :
  let w0 := IntervalConnection_close w in
  (∀ v, ∃ w',
      conn_exec eels_data_len "signal_eels_interval" (S fuel)
        (GraphicIntervalSet v) w0 = Ok w'
      ∧ cw_edge w' = cw_edge w
      ∧ cw_interval w' = v
      ∧ cw_trace w' = cw_trace w ++ [GraphicIntervalSet v])
  ∧ (∀ value, ∃ w',
      conn_exec eels_data_len "signal_eels_interval" (S fuel)
        (SetAttr value) w0 = Ok w'
      ∧ get_signal_eels_interval (cw_edge w') = value
      ∧ cw_interval w' = cw_interval w
      ∧ cw_trace w' = cw_trace w ++ [SetAttr value]).
Proof.
  split.
  - intros v. eexists. split; [reflexivity |]. done.
  - intros value. eexists. split; [reflexivity |]. done.
Qed.

Lemma elem_of_drop_data_item (o : option nat) (l : list nat) (x : nat) :
  x ∈ drop_data_item o l ↔ x ∈ l ∧ Some x ≠ o.
Proof.
  destruct o as [i |]; simpl.
  - rewrite list_elem_of_filter. split; intros [? ?]; split; congruence.
  - split; [by intros ? | by intros [? _]].
Qed.

Lemma remove_graphic_effect g h h' :
  remove_graphic g h = Ok h' →
  (∀ x, x ∈ h_graphics h' ↔ x ∈ h_graphics h ∧ x ≠ g)
  ∧ h_computations h' = h_computations h
  ∧ h_data_items h' = h_data_items h.
Proof.
  unfold remove_graphic, remove_missing. case_bool_decide as Hg.
  - intros [= <-]. simpl. split; [| done].
    intros x. rewrite list_elem_of_filter. tauto.
  - destruct missing_object; [done |]. intros [= <-]. split; [| done].
    intros x. split; [| tauto]. intros Hx. split; [done |]. by intros ->.
Qed.

Lemma for_each_remove_graphic_effect gs h h' :
  for_each remove_graphic gs h = Ok h' →
  (∀ x, x ∈ h_graphics h' ↔ x ∈ h_graphics h ∧ x ∉ gs)
  ∧ h_computations h' = h_computations h
  ∧ h_data_items h' = h_data_items h.
Proof.
  revert h. induction gs as [| g gs IH]; intros h Hfor; simpl in Hfor.
  - injection Hfor as <-. split; [| done]. intros x. set_solver.
  - inv_bind Hfor. destruct (remove_graphic_effect _ _ _ Hx) as (Hg & Hc & Hd).
    destruct (IH _ Hfor) as (Hg' & Hc' & Hd').
    split; [| split; congruence].
    intros y. rewrite Hg', Hg. set_solver.
Qed.

Lemma remove_computation_effect c h h' :
  remove_computation c h = Ok h' →
  (∀ x, x ∈ h_computations h' ↔ x ∈ h_computations h ∧ c_id x ≠ c_id c)
  ∧ h_graphics h' = h_graphics h
  ∧ (∀ x, x ∈ h_data_items h'
          ↔ x ∈ h_data_items h
            ∧ x ∉ (if bool_decide (c_id c ∈ c_id <$> h_computations h)
                   then option_list (c_subtracted c)
                        ++ option_list (c_background c)
                   else [])).
Proof.
  unfold remove_computation, remove_missing. case_bool_decide as Hc.
  - intros [= <-]. simpl. split; [| split; [done |]].
    + intros x. rewrite list_elem_of_filter. tauto.
    + intros x. rewrite !elem_of_drop_data_item.
      destruct (c_subtracted c), (c_background c); simpl; set_solver.
  - destruct missing_object; [done |]. intros [= <-].
    split; [| split; [done |]].
    + intros x. split; [| tauto]. intros Hin. split; [done |].
      intros Heq. apply Hc. rewrite <- Heq.
      apply list_elem_of_fmap. by exists x.
    + intros x. set_solver.
Qed.

Lemma attr_close_same_doc o h h' : attr_close o h = Ok h' → same_doc h h'.
Proof. destruct o; simpl; [| done]. by intros [= <-]. Qed.

Lemma attr_close_all_same_doc o h h' :
  attr_close_all o h = Ok h' → same_doc h h'.
Proof.
  destruct o; simpl; [| done]. intros [= <-]. apply same_doc_foldl.
Qed.

Lemma IntervalListConnection_close_same_doc c h h' :
  IntervalListConnection_close c h = Ok h' → same_doc h h'.
Proof.
  destruct c as [a b v ps rs]. unfold IntervalListConnection_close. simpl.
  destruct a, b, v, ps, rs; simpl; try done. intros [= <-].
  eapply same_doc_trans; [| apply same_doc_foldl].
  eapply same_doc_trans; [| apply same_doc_foldl]. done.
Qed.

(** The document just before [hide] looks at the two data items, and what
    [hide] does with them. *)
Lemma hide_steps (self self1 : EELSEdgeDisplay) (h h1 : Host) :
  hide self h = Ok (self1, h1) →
  ∃ hF,
    (∀ g, g ∈ h_graphics hF ↔ g ∈ h_graphics h ∧ g ∉ display_graphics self)
    ∧ (∀ c, c ∈ h_computations hF
            ↔ c ∈ h_computations h
              ∧ ∀ c0, ed_computation self = Some c0 → c_id c ≠ c_id c0)
    ∧ (∀ x, x ∈ h_data_items hF ↔ x ∈ h_data_items h ∧ x ∉ cascaded self h)
    ∧ h_graphics h1 = h_graphics hF
    ∧ h_computations h1 = h_computations hF
    ∧ ed_background_data_item self1
      = (if in_data_items (ed_background_data_item self) hF then None
         else ed_background_data_item self)
    ∧ (∀ x, x ∈ h_data_items h1
            ↔ x ∈ h_data_items hF
              ∧ Some x ≠ ed_background_data_item self
              ∧ Some x ≠ ed_signal_data_item self).
Proof.
  intros Hhide.
  unfold hide in Hhide.
  set (hA := match ed_signal_interval_connection self with
             | Some c => IntervalConnection_close_listeners c h
             | None => h
             end) in Hhide.
  assert (HA : same_doc h hA).
  { subst hA. destruct (ed_signal_interval_connection self) as [c |]; [| done].
    unfold IntervalConnection_close_listeners.
    eapply same_doc_trans; [apply same_doc_option |].
    apply (same_doc_option (ic_interval_binding c)). }
  inv_bind Hhide. rename x into hB.
  assert (HB : same_doc h hB).
  { eapply same_doc_trans; [exact HA |].
    destruct (ed_interval_list_connection self);
      [by eapply IntervalListConnection_close_same_doc | by simplify_eq]. }
  set (hC := match ed_computation_about_to_close_connection self with
             | Some l => listener_close l _
             | None => _
             end) in Hhide.
  assert (HC : same_doc h hC).
  { subst hC. eapply same_doc_trans; [exact HB |].
    eapply same_doc_trans; [apply same_doc_option |].
    apply (same_doc_option (ed_computation_about_to_close_connection self)). }
  destruct HC as (HCc & HCd & HCg).
  inv_bind Hhide. rename x into hD. inv_bind Hhide. rename x into hE.
  inv_bind Hhide. rename x into hF.
  assert (HD : (∀ x, x ∈ h_computations hD
                     ↔ x ∈ h_computations h
                       ∧ ∀ c0, ed_computation self = Some c0 →
                               c_id x ≠ c_id c0)
               ∧ h_graphics hD = h_graphics h
               ∧ ∀ x, x ∈ h_data_items hD
                      ↔ x ∈ h_data_items h ∧ x ∉ cascaded self h).
  { unfold cascaded. destruct (ed_computation self) as [c |].
    - destruct (remove_computation_effect _ _ _ Hx0) as (Hc & Hg & Hd).
      rewrite HCc, HCd in *. split; [| split; [congruence | done]].
      intros x. rewrite Hc. split; intros [? Hne]; split; try done.
      + by intros c0 [= <-].
      + by apply Hne.
    - simplify_eq. rewrite HCc, HCd, HCg. split; [| split; [done |]].
      + intros x. split; [by intros ? | by intros [? _]].
      + intros x. set_solver. }
  destruct HD as (HDc & HDg & HDd).
  assert (HE : (∀ x, x ∈ h_graphics hE
                     ↔ x ∈ h_graphics h
                       ∧ x ∉ option_list (ed_signal_interval_graphic self))
               ∧ h_computations hE = h_computations hD
               ∧ h_data_items hE = h_data_items hD).
  { destruct (ed_signal_interval_graphic self) as [g |]; simpl.
    - destruct (remove_graphic_effect _ _ _ Hx1) as (Hg & ? & ?).
      split; [| done]. intros x. rewrite Hg, HDg. set_solver.
    - simplify_eq. split; [| done]. intros x. rewrite HDg. set_solver. }
  destruct HE as (HEg & HEc & HEd).
  destruct (for_each_remove_graphic_effect _ _ _ Hx2) as (HFg & HFc & HFd).
  exists hF.
  split.
  { intros g. rewrite HFg, HEg. unfold display_graphics. set_solver. }
  split; [intros c; rewrite HFc, HEc; apply HDc |].
  split; [intros x; rewrite HFd, HEd; apply HDd |].
  assert (Hkeep : ∀ o hh x, in_data_items o hh = false →
                            x ∈ h_data_items hh → Some x ≠ o).
  { intros [i |] hh x Hno Hin; [| done]. simpl in Hno.
    apply bool_decide_eq_false in Hno. by intros [= ->]. }
  destruct (in_data_items (ed_background_data_item self) hF) eqn:Hb;
    destruct (in_data_items (ed_signal_data_item self) _) eqn:Hs;
    simplify_eq; simpl; (split; [done |]; split; [done |]; split; [done |]);
    intros x; rewrite ?elem_of_drop_data_item.
  - tauto.
  - split; [| tauto]. intros [Hin ?]. repeat split; try done.
    eapply (Hkeep _ (remove_data_item (ed_background_data_item self) hF));
      [exact Hs |]. simpl. by apply elem_of_drop_data_item.
  - split; [| tauto]. intros [Hin ?]. repeat split; try done.
    by eapply Hkeep.
  - split; [| tauto]. intros Hin. repeat split; try done;
      by eapply Hkeep.
Qed.








(** X17: when the computation of the display is in the document and its
    background result is the background data item of the display, as
    [show] sets them up, [hide] does not clear the attribute: the cascade
    of the computation has already taken the data item out of the document
    when [hide] tests for it, so the display keeps a reference to a data
    item that the document no longer holds. *)
Theorem hide_keeps_cascaded_data_item (self self1 : EELSEdgeDisplay)
    (h h1 : Host) (c : Computation) (i : nat)
    (Hcomputation : ed_computation self = Some c)
    (Hpresent : c_id c ∈ c_id <$> h_computations h)
    (Hresult : c_background c = Some i)
    (Hitem : ed_background_data_item self = Some i)
    (Hhide : hide self h = Ok (self1, h1)) :
  ed_background_data_item self1 = Some i ∧ i ∉ h_data_items h1.
Proof.
  destruct (hide_steps _ _ _ _ Hhide)
    as (hF & _ & _ & Hd & _ & _ & Hbg & Hd1).
  assert (Hgone : i ∉ h_data_items hF).
  { rewrite Hd. unfold cascaded. rewrite Hcomputation.
    rewrite bool_decide_eq_true_2 by done. rewrite Hresult.
    intros [_ Hn]. apply Hn. apply elem_of_app. right. simpl. left. }
  split.
  - rewrite Hbg, Hitem. simpl. by rewrite bool_decide_eq_false_2.
  - rewrite Hd1. tauto.
Qed.

End Controller.


(** ** Concrete instances

    Values for the parameters of the development, used to run the model:
    numbers are integers, a shell is its shell number, and a UUID is
    printed as the decimal digits of its integer. *)

Module Sample.

Definition num : Type := Z.
Definition ElectronShell : Type := nat.
Definition shell_truthy (_ : ElectronShell) : bool := true.
Definition shell_write_to_dict (s : ElectronShell) : gmap string num :=
  {[ "shell_number" := Z.of_nat s ]}.
Definition shell_from_d (v : @jvalue num) : result (option ElectronShell) :=
  match v with
  | JNone => Ok None
  | JDict m => Ok (Z.to_nat <$> m !! "shell_number")
  | _ => Raise AttributeError
  end.

Definition uuid_str (u : UUID) : string := pretty u.

Definition digit_of (c : ascii) : option N :=
  let n := N_of_ascii c in
  if decide (48 ≤ n ≤ 57)%N then Some (n - 48)%N else None.

Fixpoint parse_digits (acc : N) (s : string) : result UUID :=
  match s with
  | EmptyString => Ok acc
  | String c s' =>
      match digit_of c with
      | Some k => parse_digits (acc * 10 + k)%N s'
      | None => Raise ValueError
      end
  end.

Definition uuid_of_str (s : string) : result UUID :=
  match s with
  | EmptyString => Raise ValueError
  | _ => parse_digits 0%N s
  end.

Definition interval (id : nat) (s e : option Z) : @EELSInterval num :=
  mkInterval id s e.

Definition edge (u : UUID) (signal : @pyobj num ElectronShell)
    (fits : list (@EELSInterval num)) (shell : @pyobj num ElectronShell)
  : @EELSEdge num ElectronShell :=
  mkEdge u signal fits shell.

(** A calibration with offset 100 and scale 2, on data of length 10. *)
Definition fmul (x : num) (n : Z) : num := x * n.
Definition fdiv (x : num) (n : Z) : num := x / n.
Definition convert_to_calibrated_value (x : num) : num := 100 + x * 2.
Definition convert_from_calibrated_value (x : num) : num := (x - 100) / 2.
Definition eels_data_len : Z := 10.

Definition run_call
  : nat → call → ListWorld → result (@ListWorld num ElectronShell) :=
  exec fmul fdiv convert_to_calibrated_value
    convert_from_calibrated_value eels_data_len.

Definition run_calls
  : nat → list call → ListWorld → result (@ListWorld num ElectronShell) :=
  exec_all fmul fdiv convert_to_calibrated_value
    convert_from_calibrated_value eels_data_len.

(** An edge display as [show] leaves it, and its document. *)
Definition computation : Computation :=
  mkComputation 30 "eels.background_subtraction2" (Some 5%nat) (Some "7")
    (Some [21; 22]%nat) (Some 20%nat) (Some 11%nat) (Some 10%nat).

Definition shown_edge : @EELSEdge num ElectronShell :=
  edge 7%N (PyInterval (interval 0 (Some 120) (Some 140)))
    [interval 1 (Some 100) (Some 120); interval 2 (Some 160) (Some 180)] PyNone.

Definition shown_display : @EELSEdgeDisplay num ElectronShell :=
  mkEdgeDisplay shown_edge (Some 10%nat) (Some 11%nat) (Some 20%nat)
    [21; 22]%nat (Some computation)
    (Some (mkIC (Some 40%nat) (Some 41%nat)))
    (Some (mkILC (Some 42%nat) (Some 43%nat) (Some 44%nat)
             (Some [45; 46]%nat) (Some [47; 48]%nat)))
    (Some 49%nat) (Some 50%nat).

Definition shown_host : Host :=
  mkHost [computation] [1; 10; 11]%nat [20; 21; 22]%nat
    [40; 41; 42; 43; 44; 45; 46; 47; 48; 49; 50; 99]%nat.

Definition run_conn_call
  : nat → conn_call → ConnWorld → result (@ConnWorld num ElectronShell) :=
  conn_exec fmul fdiv convert_to_calibrated_value
    convert_from_calibrated_value eels_data_len "signal_eels_interval".

Definition to_graphic : pyobj → result (@frac num) :=
  convert (ElectronShell := ElectronShell) fdiv
    convert_from_calibrated_value eels_data_len.

(** The list connection of the sample edge, as [show] makes it: graphics
    21 and 22 show the two fit intervals. *)
Definition list_world : @ListWorld num ElectronShell :=
  IntervalListConnection_init shown_edge [20; 21; 22]%nat
    {[ 21%nat := (0, 1); 22%nat := (3, 4) ]} [21; 22]%nat [21; 22]%nat 23 5.

(** A list connection on an edge without fit intervals. *)
Definition empty_list_world : @ListWorld num ElectronShell :=
  IntervalListConnection_init (edge 7%N PyNone [] PyNone) [] ∅ [] [] 0 2.

Definition is_parallel : @ListWorld num ElectronShell → Prop :=
  parallel fdiv convert_from_calibrated_value eels_data_len.

End Sample.

(** C10, run on the dict [{"uuid": "7"}]. *)
Lemma init_from_d_signal_never_none_witness :
  EELSEdge_init Sample.shell_from_d Sample.uuid_str Sample.uuid_of_str
    1%N 2%N 0%nat PyNone None PyNone (Some {[ "uuid" := JStr "7" ]})
  = Ok (Sample.edge 7%N (PyInterval (Sample.interval 0 None None)) [] PyNone).
Proof.
  refine (proj2 (init_from_d_signal_never_none
           Sample.shell_from_d Sample.uuid_str Sample.uuid_of_str
           1%N 2%N 0%nat PyNone None PyNone {[ "uuid" := JStr "7" ]} _)
           7%N [] [] None _ _ _ _).
  - left. vm_compute. reflexivity.
  - vm_compute. reflexivity.
  - vm_compute. reflexivity.
  - reflexivity.
  - vm_compute. reflexivity.
Defined.

(** C8 (the failing input): with the same interval object [a] at positions 0
    and 2, [remove_fit_eels_interval(2)] removes position 0: the list
    [[a; b; a]] becomes [[b; a]], not [[a; b]], while the notification still
    carries index 2. *)
Theorem remove_fit_eels_interval_aliased :
  let a := Sample.interval 0 (Some 10) (Some 20) in
  let b := Sample.interval 1 (Some 30) (Some 40) in
  let e := Sample.edge 7%N PyNone [a; b; a] PyNone in
  remove_fit_eels_interval 2 e
  = Ok (Sample.edge 7%N PyNone [b; a] PyNone,
        [item_removed "fit_eels_intervals" a 2])
  ∧ delete 2%nat [a; b; a] = [a; b]
  ∧ [b; a] ≠ [a; b].
Proof. split; [reflexivity | split; [reflexivity | discriminate]]. Qed.



(** C7, run on an edge with a signal interval that lacks its end, two fit
    intervals and a shell. *)
Lemma write_read_round_trip_witness :
  let e := Sample.edge 7%N (PyInterval (Sample.interval 0 (Some 120) None))
             [Sample.interval 1 None (Some 108);
              Sample.interval 2 (Some 160) (Some 180)] (PyShell 3%nat) in
  ∃ d e',
    EELSEdge_write_to_dict Sample.shell_truthy Sample.shell_write_to_dict
      Sample.uuid_str e = Ok d
    ∧ EELSEdge_init Sample.shell_from_d Sample.uuid_str Sample.uuid_of_str
        1%N 2%N 10%nat PyNone None PyNone (Some d) = Ok e'
    ∧ get_uuid e' = get_uuid e
    ∧ bounds <$> get_fit_eels_intervals e' = bounds <$> get_fit_eels_intervals e
    ∧ get_electron_shell e' = get_electron_shell e
    ∧ ∃ i', get_signal_eels_interval e' = PyInterval i'
            ∧ bounds i' = (Some 120, None).
Proof.
  intros e.
  apply (write_read_round_trip Sample.shell_truthy Sample.shell_write_to_dict
           Sample.shell_from_d Sample.uuid_str Sample.uuid_of_str
           e 1%N 2%N 10%nat PyNone None PyNone).
  - split; exact I.
  - split; [vm_compute; reflexivity |].
    split; vm_compute; reflexivity.
Defined.

(** C7 (the claim as stated fails): an edge without a signal interval comes
    back from its dict with a signal interval object. *)
Lemma round_trip_absent_signal_not_preserved :
  let e := Sample.edge 7%N PyNone [Sample.interval 1 (Some 104) (Some 108)]
             PyNone in
  ∃ d e',
    EELSEdge_write_to_dict Sample.shell_truthy Sample.shell_write_to_dict
      Sample.uuid_str e = Ok d
    ∧ EELSEdge_init Sample.shell_from_d Sample.uuid_str Sample.uuid_of_str
        1%N 2%N 10%nat PyNone None PyNone (Some d) = Ok e'
    ∧ get_signal_eels_interval e = PyNone
    ∧ get_signal_eels_interval e' = PyInterval (Sample.interval 10 None None)
    ∧ get_signal_eels_interval e' ≠ get_signal_eels_interval e.
Proof.
  intros e. eexists _, _.
  split; [reflexivity |]. split; [vm_compute; reflexivity |].
  split; [reflexivity |]. split; [reflexivity | discriminate].
Qed.

(** C5, run on a fresh connection of the sample edge: the graphic is moved
    to (3, 4). *)
Lemma graphic_change_writes_edge_once_witness :
  let w := IntervalConnection_init Sample.shown_edge (1, 2) 5 in
  let x := Sample.interval 5 (Some 160) (Some 180) in
  ∃ w',
    Sample.run_conn_call 3 (GraphicIntervalSet (3, 4)) w = Ok w'
    ∧ cw_trace w'
      = [GraphicIntervalSet (3, 4); SetAttr (PyInterval x);
         GraphicIntervalSet (3, 4)]
    ∧ edge_writes (cw_trace w') = [PyInterval x]
    ∧ graphic_writes (cw_trace w') = [(3, 4); (3, 4)]
    ∧ get_signal_eels_interval (cw_edge w') = PyInterval x
    ∧ cw_interval w' = (3, 4)
    ∧ cw_blocked w' = false.
Proof.
  intros w x.
  apply (graphic_change_writes_edge_once Sample.fmul Sample.fdiv
           Sample.convert_to_calibrated_value
           Sample.convert_from_calibrated_value
           Sample.eels_data_len 0%nat w (3, 4));
    reflexivity.
Defined.

(** C5 (the claim as stated fails): the single change of the graphic is
    followed by a second write into the graphic, made by the binding when
    the edge announces the value it was just given. *)
Lemma graphic_change_writes_graphic_back :
  let w := IntervalConnection_init Sample.shown_edge (1, 2) 5 in
  ∃ w',
    Sample.run_conn_call 10 (GraphicIntervalSet (3, 4)) w = Ok w'
    ∧ length (edge_writes (cw_trace w')) = 1%nat
    ∧ graphic_writes (cw_trace w') = [(3, 4); (3, 4)]
    ∧ length (graphic_writes (cw_trace w')) = 2%nat.
Proof. intros w. eexists. split; [vm_compute; reflexivity |]. done. Qed.

(** C6, run on the sample edge: the graphic stays at (0, 1) when the
    connection is made, and takes the converted interval when the signal
    interval is next set. *)
Lemma connection_init_pushes_nothing_witness :
  let w := IntervalConnection_init Sample.shown_edge (0, 1) 5 in
  cw_interval w = (0, 1)
  ∧ ∃ w',
      Sample.run_conn_call 4 (SetAttr (PyInterval
                                     (Sample.interval 9 (Some 160) (Some 180))))
        w = Ok w'
      ∧ graphic_writes (cw_trace w') = [(3, 4); (3, 4)].
Proof.
  intros w.
  pose proof (connection_init_pushes_nothing Sample.fmul Sample.fdiv
                Sample.convert_to_calibrated_value
                Sample.convert_from_calibrated_value
                Sample.shown_edge (0, 1) 5%nat) as (Hi & _ & _ & Hpush).
  split; [exact Hi |].
  apply (Hpush Sample.eels_data_len 0%nat
           (Sample.interval 9 (Some 160) (Some 180)) (3, 4)).
  reflexivity.
Defined.

(** C6 (the claim as stated fails): the signal interval of the edge
    converts to (1, 2), the graphic is at (0, 1) before the connection is
    made and is still there afterwards, and no call was made. *)
Lemma connection_init_leaves_graphic :
  let w := IntervalConnection_init Sample.shown_edge (0, 1) 5 in
  Sample.to_graphic (get_signal_eels_interval Sample.shown_edge) = Ok (1, 2)
  ∧ cw_interval w = (0, 1)
  ∧ cw_trace w = []
  ∧ Ok (cw_interval w)
    ≠ Sample.to_graphic (get_signal_eels_interval (cw_edge w)).
Proof. repeat split. discriminate. Qed.

(** The list connection of the sample edge after
    [remove_fit_eels_interval(0)]: graphic 22 is now the graphic of
    position 0, and its listener still carries the index 1 it was made
    with. *)
Definition shifted_list_world : @ListWorld Sample.num Sample.ElectronShell :=
  mkLW
    (Sample.edge 7%N (PyInterval (Sample.interval 0 (Some 120) (Some 140)))
       [Sample.interval 2 (Some 160) (Some 180)] PyNone)
    [20; 22]%nat {[ 22%nat := (3, 4) ]} [22%nat] [22%nat]
    [mkListener 22 1] [mkListener 22 1] false false 23 5
    [EdgeRemove 0;
     Notify (item_removed "fit_eels_intervals"
               (Sample.interval 1 (Some 100) (Some 120)) 0);
     RemoveGraphic 21].

Lemma shifted_list_world_reached :
  Sample.run_call 10 (EdgeRemove 0) Sample.list_world = Ok shifted_list_world.
Proof. vm_compute. reflexivity. Qed.



(** C3 (the failing input): the same interval object [a] is inserted at
    positions 0 and 2, around [b]; the graphics are parallel to the fit
    intervals until [remove_fit_eels_interval(2)], which takes [a] out of
    position 0 of the edge while the connection drops the graphic of
    position 2: the lengths still agree, but graphic 0 shows [a] where
    the edge now holds [b]. *)
Theorem fit_graphics_not_parallel_when_aliased :
  let a := Sample.interval 0 (Some 120) (Some 140) in
  let b := Sample.interval 1 (Some 160) (Some 180) in
  ∃ w1 w2,
    Sample.run_calls 10 [EdgeInsert 0 a; EdgeInsert 1 b; EdgeInsert 2 a]
      Sample.empty_list_world = Ok w1
    ∧ Sample.is_parallel w1
    ∧ Sample.run_call 10 (EdgeRemove 2) w1 = Ok w2
    ∧ edge_fit_eels_intervals (lw_edge w2) = [b; a]
    ∧ lw_fit_interval_graphics w2 = [0; 1]%nat
    ∧ lw_interval w2 !! 0%nat = Some (1, 2)
    ∧ lw_interval w2 !! 1%nat = Some (3, 4)
    ∧ ¬ Sample.is_parallel w2.
Proof.
  intros a b. eexists _, _.
  split; [vm_compute; reflexivity |].
  split.
  { repeat constructor; eexists; split; vm_compute; reflexivity. }
  split; [vm_compute; reflexivity |].
  split; [reflexivity |]. split; [reflexivity |].
  split; [vm_compute; reflexivity |]. split; [vm_compute; reflexivity |].
  intros H. apply Forall2_cons_1 in H as [(v & Hv & Hg) _].
  vm_compute in Hv. vm_compute in Hg. congruence.
Qed.

(** X8, run on the sample edge, which has two fit intervals: index 5 is
    clamped to position 2 and announced as 5. *)
Lemma insert_fit_eels_interval_any_index_witness :
  let x := Sample.interval 9 (Some 200) (Some 220) in
  let e' := (insert_fit_eels_interval 5 x Sample.shown_edge).1 in
  let k := Py.insert_pos (edge_fit_eels_intervals Sample.shown_edge) 5 in
  length (edge_fit_eels_intervals e')
  = S (length (edge_fit_eels_intervals Sample.shown_edge))
  ∧ edge_fit_eels_intervals e' !! k = Some x
  ∧ delete k (edge_fit_eels_intervals e')
    = edge_fit_eels_intervals Sample.shown_edge
  ∧ (0 ≤ 5 ≤ Z.of_nat (length (edge_fit_eels_intervals Sample.shown_edge)) ↔
     Z.of_nat k = 5)
  ∧ (insert_fit_eels_interval 5 x Sample.shown_edge).2
    = [item_inserted "fit_eels_intervals" x 5].
Proof.
  intros x.
  apply (insert_fit_eels_interval_any_index 5 x Sample.shown_edge).
  split; [discriminate | reflexivity].
Defined.

(** X9, run on the list [[a; b; a]] with one object at positions 0 and 2:
    removing at index 2 drops position 0. *)
Lemma remove_fit_eels_interval_first_identical_witness :
  let a := Sample.interval 0 (Some 120) (Some 140) in
  let b := Sample.interval 1 (Some 160) (Some 180) in
  let e := Sample.edge 7%N PyNone [a; b; a] PyNone in
  ∃ k j x,
    Py.norm (edge_fit_eels_intervals e) 2 = Some k
    ∧ edge_fit_eels_intervals e !! k = Some x
    ∧ (j ≤ k)%nat
    ∧ (∃ y, edge_fit_eels_intervals e !! j = Some y ∧ oid y = oid x)
    ∧ (∀ i y, (i < j)%nat → edge_fit_eels_intervals e !! i = Some y →
              oid y ≠ oid x)
    ∧ Sample.edge 7%N PyNone [b; a] PyNone
      = with_fits e (delete j (edge_fit_eels_intervals e))
    ∧ [item_removed "fit_eels_intervals" a 2]
      = [item_removed "fit_eels_intervals" x 2].
Proof.
  intros a b e.
  apply (proj2 (proj2 (remove_fit_eels_interval_first_identical 2 e))).
  reflexivity.
Defined.

(** X10, run on the sample edge: a new interval is inserted at index 1
    and removed again. *)
Lemma insert_then_remove_restores_witness :
  let x := Sample.interval 9 (Some 200) (Some 220) in
  remove_fit_eels_interval 1
    (insert_fit_eels_interval 1 x Sample.shown_edge).1
  = Ok (Sample.shown_edge, [item_removed "fit_eels_intervals" x 1]).
Proof.
  intros x. apply (insert_then_remove_restores 1 x Sample.shown_edge).
  - simpl. lia.
  - intros y Hy. simpl in Hy.
    apply elem_of_cons in Hy as [-> | Hy]; [simpl; lia |].
    apply elem_of_cons in Hy as [-> | Hy]; [simpl; lia |].
    by apply elem_of_nil in Hy.
Defined.

(** X11, run on the sample edge with the index -1, the last fit
    interval. *)
Lemma set_fit_eels_interval_in_range_witness :
  let x := Sample.interval 9 (Some 200) (Some 220) in
  ∃ k,
    Py.norm (edge_fit_eels_intervals Sample.shown_edge) (-1) = Some k
    ∧ [Sample.interval 1 (Some 100) (Some 120); x] !! k = Some x.
Proof.
  intros x.
  destruct (proj2 (proj2 (set_fit_eels_interval_in_range (-1) x
                            Sample.shown_edge))
              (Sample.edge 7%N
                 (PyInterval (Sample.interval 0 (Some 120) (Some 140)))
                 [Sample.interval 1 (Some 100) (Some 120); x] PyNone)
              [item_value_changed "fit_eels_intervals" x (-1)] eq_refl)
    as (k & Hk & Hx & _).
  exists k. split; [exact Hk | exact Hx].
Defined.

(** X12, run on the sample edge, whose UUID is 7. *)
Lemma get_eels_edge_from_uuid_first_witness :
  ∃ i, [Sample.shown_edge] !! i = Some Sample.shown_edge
       ∧ get_uuid Sample.shown_edge = 7%N
       ∧ ∀ j e', (j < i)%nat → [Sample.shown_edge] !! j = Some e' →
                 get_uuid e' ≠ 7%N.
Proof.
  apply (proj2 (get_eels_edge_from_uuid_first [Sample.shown_edge] 7%N)).
  reflexivity.
Defined.

(** X13, run on a document that holds the sample computation. *)
Lemma read_computation_map_only_own_witness :
  background_subtraction_of Sample.uuid_of_str (Some 5%nat)
    [Sample.computation] 7%N Sample.computation.
Proof.
  apply (read_computation_map_only_own Sample.uuid_of_str (Some 5%nat)
           [Sample.computation] {[ 7%N := Sample.computation ]}).
  - vm_compute. reflexivity.
  - vm_compute. reflexivity.
Defined.

(** X14, run on a persisted list that names edge 7 twice: one display is
    rebuilt. *)
Lemma read_edge_displays_rebuilds_witness :
  let m : gmap N Computation := {[ 7%N := Sample.computation ]} in
  let d : @EELSEdgeDisplay Sample.num Sample.ElectronShell :=
    mkEdgeDisplay Sample.shown_edge (Some 10%nat) (Some 11%nat) (Some 20%nat)
      [21; 22]%nat (Some Sample.computation) None None None None in
  ∃ new,
    [d] = [] ++ new
    ∧ (length new ≤ size m)%nat
    ∧ (length new ≤ 2)%nat
    ∧ Forall (rebuilt_from [Sample.shown_edge] m) new
    ∧ NoDup ((λ d, get_uuid (ed_eels_edge d)) <$> new).
Proof.
  intros m d.
  apply (read_edge_displays_rebuilds Sample.uuid_str Sample.uuid_of_str
           [Sample.shown_edge] (λ _, 1%N) 0
           [{[ "eels_edge_uuid" := JStr "7" ]};
            {[ "eels_edge_uuid" := JStr "7" ]}] m [] [d]).
  vm_compute. reflexivity.
Defined.

(** The sample display and document after [hide]. *)
Definition hidden_display : @EELSEdgeDisplay Sample.num Sample.ElectronShell :=
  mkEdgeDisplay Sample.shown_edge (Some 10%nat) (Some 11%nat) None [] None
    None None None None.

Definition hidden_host : Host := mkHost [] [1%nat] [] [99%nat].

Lemma hide_sample :
  hide (Some ValueError) Sample.shown_display Sample.shown_host
  = Ok (hidden_display, hidden_host).
Proof. vm_compute. reflexivity. Qed.

(** X17, run on the sample display: the background data item 10 is gone
    from the document and still referenced by the display. *)
Lemma hide_keeps_cascaded_data_item_witness :
  ed_background_data_item hidden_display = Some 10%nat
  ∧ 10%nat ∉ h_data_items hidden_host.
Proof.
  apply (hide_keeps_cascaded_data_item (Some ValueError) Sample.shown_display
           hidden_display Sample.shown_host hidden_host Sample.computation
           10%nat).
  - reflexivity.
  - apply (bool_decide_unpack
             (c_id Sample.computation
                ∈ c_id <$> h_computations Sample.shown_host)).
    vm_compute. exact I.
  - reflexivity.
  - reflexivity.
  - exact hide_sample.
Defined.





